(** * build_and_export_duplex.py: a shallow embedding and its properties

    The script drives the host application's scene API (bpy).  The parts
    of the host that the script touches are modelled as plain data:
    data-block collections as lists and finite maps, node trees as lists
    of nodes and links, the file system as a finite map from paths to
    node kinds.  Python exceptions are an explicit error result. *)

From Stdlib Require Import ZArith QArith List String Ascii Lia Bool.
From stdpp Require Import base option list gmap strings.

Open Scope string_scope.
Open Scope list_scope.
Open Scope nat_scope.

(** ** Layout of the source file

    Python delimits blocks by indentation.  Each logical line of the
    file (blank lines, comment lines and the continuation lines of a
    bracketed literal are not logical lines) is recorded with its line
    number, the column of its first character and whether it is a
    compound-statement header that ends in a colon and so must be
    followed by an indented block. *)
Module Layout.

Inductive line_kind :=
  | Simple          (* simple statement(s) *)
  | Header          (* compound header ending the line with ':' *)
  | InlineCompound. (* compound header with its body on the same line *)

Record logical_line := Line {
  lineno : nat;
  indent : nat;
  kind : line_kind
}.

Definition stm (n c : nat) := Line n c Simple.
Definition hdr (n c : nat) := Line n c Header.
Definition inl (n c : nat) := Line n c InlineCompound.

(** The logical lines of build_and_export_duplex.py, lines 15 to 245. *)
Definition source_lines : list logical_line := [
    stm 15 0; stm 16 0; stm 22 0; stm 23 0;
    stm 24 0; stm 25 0; stm 26 0; stm 28 0;
    stm 29 0; hdr 31 0; stm 32 4; hdr 33 4;
    stm 34 8; hdr 35 8; stm 36 12; hdr 37 8;
    stm 38 12; stm 39 4; hdr 41 0; stm 42 4;
    stm 43 4; stm 44 4; stm 45 4; hdr 46 4;
    stm 47 8; stm 48 4; hdr 50 0; stm 51 4;
    stm 52 4; stm 53 4; stm 54 4; hdr 55 4;
    stm 56 8; stm 57 4; hdr 59 0; stm 60 4;
    stm 61 4; stm 62 4; stm 63 4; hdr 64 4;
    stm 65 8; stm 66 8; stm 67 8; stm 68 4;
    stm 69 4; stm 70 4; inl 72 0; hdr 74 0;
    stm 75 4; stm 76 4; inl 77 4; stm 78 4;
    stm 79 4; stm 80 4; stm 81 4; stm 82 4;
    stm 83 4; stm 84 4; hdr 86 0; hdr 87 4;
    inl 88 8; inl 89 8; hdr 91 0; stm 92 4;
    stm 93 4; stm 94 4; stm 95 4; stm 96 4;
    hdr 97 4; stm 98 8; stm 99 4; hdr 101 0;
    stm 102 4; stm 104 4; stm 105 4; stm 106 4;
    stm 107 4; stm 108 4; stm 109 4; stm 110 4;
    stm 111 4; stm 112 4; stm 113 4; stm 114 4;
    stm 115 4; stm 117 4; stm 118 4; stm 119 4;
    stm 120 4; stm 121 4; stm 122 4; stm 123 4;
    stm 124 0; stm 125 4; stm 126 4; stm 127 4;
    stm 128 4; stm 129 4; stm 130 4; stm 131 4;
    stm 132 4; stm 133 4; stm 136 4; stm 137 4;
    stm 138 4; stm 139 4; stm 140 4; stm 141 4;
    stm 148 4; stm 149 4; inl 150 4; stm 151 4;
    stm 152 4; stm 153 4; stm 154 4; stm 155 4;
    stm 158 4; stm 167 4; stm 169 4; stm 170 4;
    stm 171 4; stm 178 4; stm 179 4; hdr 182 4;
    stm 183 8; stm 184 8; stm 185 8; stm 186 8;
    stm 188 4; stm 189 4; hdr 191 4; stm 192 8;
    stm 193 8; stm 194 8; stm 195 8; stm 196 8;
    stm 198 4; stm 199 4; stm 200 4; stm 203 4;
    stm 204 4; stm 206 4; hdr 212 0; stm 213 4;
    stm 214 4; stm 215 4; stm 216 4; stm 217 4;
    hdr 219 4; inl 220 8; stm 222 4; stm 225 4;
    stm 226 4; hdr 229 4; stm 230 8; stm 231 8;
    hdr 233 4; stm 234 8; stm 235 8; stm 237 4;
    hdr 242 0; stm 243 4; stm 244 4; stm 245 4 ].

Inductive syntax_error :=
  | UnexpectedIndent (line : nat)
  | ExpectedIndentedBlock (line : nat)
  | InconsistentDedent (line : nat).

(** Pop the indentation stack down to column [c]; the column must be
    one of the enclosing levels. *)
Fixpoint dedent_to (c : nat) (stack : list nat) : option (list nat) :=
  match stack with
  | [] => None
  | top :: rest =>
      if Nat.eqb top c then Some stack
      else if Nat.ltb c top then dedent_to c rest
      else None
  end.

(** The tokenizer's indentation pass joined with the grammar's rule for
    blocks: an INDENT is legal exactly after a header, and a header must
    be followed by an INDENT. *)
Fixpoint check_indent (stack : list nat) (after_header : bool)
    (ls : list logical_line) : option syntax_error :=
  match ls with
  | [] => if after_header then Some (ExpectedIndentedBlock 0) else None
  | l :: rest =>
      let top := hd 0 stack in
      let next := match kind l with Header => true | _ => false end in
      if Nat.ltb top (indent l) then
        if after_header then check_indent (indent l :: stack) next rest
        else Some (UnexpectedIndent (lineno l))
      else if after_header then Some (ExpectedIndentedBlock (lineno l))
      else match dedent_to (indent l) stack with
           | Some stack' => check_indent stack' next rest
           | None => Some (InconsistentDedent (lineno l))
           end
  end.

Definition compile (ls : list logical_line) : option syntax_error :=
  check_indent [0] false ls.

End Layout.

(** ** Numbers

    The script computes with Python floats.  A float is kept as the
    expression that produced it: two occurrences of the same expression
    denote the same float, and nothing else about floating-point
    arithmetic is used. *)
Inductive fexpr :=
  | FLit (q : Q)
  | FAdd (a b : fexpr)
  | FSub (a b : fexpr)
  | FMul (a b : fexpr)
  | FDiv (a b : fexpr)
  | FMax (a b : fexpr)
  | FRadians (deg : fexpr)     (* math.radians *)
  | FSingle (a : fexpr).       (* a component read back from a mathutils.Vector *)

Inductive value :=
  | VNum (f : fexpr)
  | VTuple (fs : list fexpr)
  | VInt (z : Z)
  | VStr (s : string)
  | VBool (b : bool).

Definition point : Type := fexpr * fexpr * fexpr.

(** Python exceptions that the modelled code can raise. *)
Inductive exn :=
  | ValueError (what : string)
  | IndexError (what : string)
  | FileExistsError (path : list string)
  | FileNotFoundError (path : list string)
  | NotADirectoryError (path : list string)
  | IsADirectoryError (path : list string)
  | RuntimeError (what : string)
  | AttributeError (what : string)
  | TypeError (what : string)
  | SyntaxError (line : nat).

Inductive result (A : Type) :=
  | Ok (a : A)
  | Raise (e : exn).
Arguments Ok {A} a.
Arguments Raise {A} e.

(** Sequencing stops at the first exception: the script has no
    [try] statement. *)
#[export] Instance result_ret : MRet result := fun A a => Ok a.
#[export] Instance result_bind : MBind result := fun A B k r =>
  match r with Ok a => k a | Raise e => Raise e end.


(** ** Names of data-blocks

    The host names every data-block it creates: an empty name becomes
    the type's default name, a name longer than 63 bytes is cut, and a
    name in use gets a numeric suffix.  The model takes the host's
    choice as a function of the default name, the requested name and
    the names in use; what the properties below need of it are the two
    laws [fresh] and [exact]. *)
Module Host.

Definition naming : Type := string -> string -> gset string -> string.

(** A name the host takes as it is, when it is free. *)
Definition valid_name (s : string) : bool :=
  negb (String.eqb s "") && Nat.leb (String.length s) 63.

(** The name given is never one in use. *)
Definition fresh (h : naming) : Prop :=
  forall d r used, h d r used ∉ used.

(** A valid name that is free is given as requested. *)
Definition exact (h : naming) : Prop :=
  forall d r used, valid_name r = true -> r ∉ used -> h d r used = r.

(** A name not in [used]: longer than each of them. *)
Definition longer_than_all (used : gset string) : string :=
  foldr String.append "x" (elements used).

(** The suffix [.001], [.002], ... for a count below 1000. *)
Definition digit (d : nat) : ascii := ascii_of_nat (48 + d).

Definition numbered (base : string) (k : nat) : string :=
  base +:+ String "."%char
    (String (digit (k / 100 mod 10))
       (String (digit (k / 10 mod 10)) (String (digit (k mod 10)) ""))).

(** The first of [base.k], [base.(k+1)], ... that is free, trying
    [tries] of them. *)
Fixpoint first_free (base : string) (used : gset string) (k tries : nat)
    : option string :=
  match tries with
  | 0 => None
  | S tries =>
      if bool_decide (numbered base k ∈ used)
      then first_free base used (S k) tries
      else Some (numbered base k)
  end.

(** The host's choice as far as the examples below need it: the
    default for the empty name, the first 63 bytes of a long one, and
    when that is taken the first free one of the suffixes [.001] to
    [.999].  (What the host does beyond that, and its counting on from
    a name that already ends in a number, is not modelled: some name
    that is not in use is given.) *)
Definition blender_names : naming := fun d r used =>
  let base := if String.eqb r "" then d else substring 0 63 r in
  if bool_decide (base ∈ used) then
    match first_free base used 1 999 with
    | Some name => name
    | None => longer_than_all used
    end
  else base.

End Host.

(** ** Shader node trees (bpy.types.NodeTree) *)
Module NodeTree.

Record node := Node {
  node_id : nat;
  bl_idname : string;
  inputs : gmap string value;   (* default_value assigned to an input socket *)
  props : gmap string value     (* attribute assigned to the node *)
}.
(** A socket or attribute that is not in the map still holds the value
    the host gave it when the node was created. *)

(** A link joins an output socket of one node to an input socket of
    another. *)
Record link := Link {
  from_node : nat; from_socket : string;
  to_node : nat; to_socket : string
}.

Record node_tree := Tree {
  nodes : list node;
  links : list link;
  next_id : nat
}.

(** [nt.nodes.new(idname)] *)
Definition nodes_new (idname : string) (t : node_tree) : nat * node_tree :=
  let n := Node (next_id t) idname ∅ ∅ in
  (next_id t, Tree (nodes t ++ [n]) (links t) (S (next_id t))).

(** [nt.nodes.remove(n)]: the node goes, and with it every link that
    touches it. *)
Definition nodes_remove (i : nat) (t : node_tree) : node_tree :=
  Tree (filter (fun n => node_id n <> i) (nodes t))
       (filter (fun l => from_node l <> i /\ to_node l <> i) (links t))
       (next_id t).

(** [for n in nt.nodes: nt.nodes.remove(n)]: the host's collection
    iterator hands out every node that was in the tree. *)
Definition remove_all_nodes (t : node_tree) : node_tree :=
  fold_left (fun acc n => nodes_remove (node_id n) acc) (nodes t) t.

(** [nt.links.new(a.outputs[so], b.inputs[si])]: an input socket takes
    one link, a new one replaces the old. *)
Definition links_new (a : nat) (so : string) (b : nat) (si : string)
    (t : node_tree) : node_tree :=
  Tree (nodes t)
       (filter (fun l => ~ (to_node l = b /\ to_socket l = si)) (links t)
          ++ [Link a so b si])
       (next_id t).

Definition update_node (i : nat) (f : node -> node) (t : node_tree) : node_tree :=
  Tree ((fun n => if decide (node_id n = i) then f n else n) <$> nodes t)
       (links t) (next_id t).

(** Storing [v] as the default value of input [k] of node [i]. *)
Definition set_input (i : nat) (k : string) (v : value) : node_tree -> node_tree :=
  update_node i (fun n => Node (node_id n) (bl_idname n) (<[k := v]> (inputs n)) (props n)).

(** What an input socket holds: a colour (four floats) or a float. *)
Inductive shape :=
  | ColorSocket
  | FloatSocket.

(** The host's check of an assigned value: a float socket takes a
    Python number; a colour socket takes a sequence of four floats, a
    sequence of another length being a ValueError and anything else a
    TypeError. *)
Definition check_value (sh : shape) (v : value) : result unit :=
  match sh, v with
  | FloatSocket, (VNum _ | VInt _ | VBool _) => Ok tt
  | FloatSocket, _ => Raise (TypeError "expected a float type")
  | ColorSocket, VTuple fs =>
      if Nat.eqb (length fs) 4 then Ok tt
      else Raise (ValueError "sequences of dimension 1 should contain 4 items")
  | ColorSocket, VStr s =>
      if Nat.eqb (String.length s) 4
      then Raise (TypeError "expected sequence items of type float")
      else Raise (ValueError "sequences of dimension 1 should contain 4 items")
  | ColorSocket, _ => Raise (TypeError "expected a sequence of floats")
  end.

(** [n.inputs[k].default_value = v]: checked, then stored. *)
Definition assign_default_value (sh : shape) (i : nat) (k : string)
    (v : value) (t : node_tree) : result unit * node_tree :=
  match check_value sh v with
  | Ok _ => (Ok tt, set_input i k v t)
  | Raise e => (Raise e, t)
  end.

(** [n.attr = v] *)
Definition set_prop (i : nat) (k : string) (v : value) : node_tree -> node_tree :=
  update_node i (fun n => Node (node_id n) (bl_idname n) (inputs n) (<[k := v]> (props n))).

Definition find_node (i : nat) (t : node_tree) : option node :=
  List.find (fun n => bool_decide (node_id n = i)) (nodes t).

(** Every link of a tree joins two nodes of that tree (a host
    invariant). *)
Definition links_closed (t : node_tree) : Prop :=
  Forall (fun l => from_node l ∈ node_id <$> nodes t) (links t).

End NodeTree.

(** ** The host's data-blocks (bpy.data and bpy.context.scene) *)
Module Bpy.
Import NodeTree.

Record material := Material {
  mat_use_nodes : bool;
  mat_node_tree : option node_tree
}.

Record world := World {
  world_use_nodes : bool;
  world_node_tree : option node_tree
}.

(** The tree the host builds when nodes are first switched on. *)
Definition default_material_tree : node_tree :=
  Tree [Node 0 "ShaderNodeBsdfPrincipled" ∅ ∅; Node 1 "ShaderNodeOutputMaterial" ∅ ∅]
       [Link 0 "BSDF" 1 "Surface"] 2.

Definition default_world_tree : node_tree :=
  Tree [Node 0 "ShaderNodeBackground" ∅ ∅; Node 1 "ShaderNodeOutputWorld" ∅ ∅]
       [Link 0 "Background" 1 "Surface"] 2.

(** [x.use_nodes = True; nt = x.node_tree] *)
Definition tree_or (d : node_tree) (t : option node_tree) : node_tree :=
  match t with Some t => t | None => d end.

End Bpy.

(** ** make_basic_material (lines 74 to 84) *)
Module Materials.
Import NodeTree Bpy Host.

(** The body from [nt = mat.node_tree] on, as a function of the tree.
    An assignment the host rejects ends it, with the tree as it is at
    that line. *)
Definition rebuild_material_tree (base_color metallic roughness : value)
    (nt : node_tree) : result unit * node_tree :=
  let nt := remove_all_nodes nt in
  let '(out, nt) := nodes_new "ShaderNodeOutputMaterial" nt in
  let '(bsdf, nt) := nodes_new "ShaderNodeBsdfPrincipled" nt in
  match assign_default_value ColorSocket bsdf "Base Color" base_color nt with
  | (Raise e, nt) => (Raise e, nt)
  | (Ok _, nt) =>
  match assign_default_value FloatSocket bsdf "Metallic" metallic nt with
  | (Raise e, nt) => (Raise e, nt)
  | (Ok _, nt) =>
  match assign_default_value FloatSocket bsdf "Roughness" roughness nt with
  | (Raise e, nt) => (Raise e, nt)
  | (Ok _, nt) => (Ok tt, links_new bsdf "BSDF" out "Surface" nt)
  end end end.

(** [bpy.data.materials] is keyed by name.  [materials.get(name)] finds
    the material of exactly that name; [materials.new(name)] creates
    one under the name the host gives it.  The returned material is
    named by its key. *)
Definition make_basic_material (h : naming) (name : string)
    (base_color metallic roughness : value)
    (materials : gmap string material) : result string * gmap string material :=
  let '(key, mat) :=
    match materials !! name with
    | Some m => (name, m)                                   (* materials.get(name) *)
    | None => (h "Material" name (dom materials),
               Material false None)                         (* materials.new(name) *)
    end in
  let nt := tree_or default_material_tree (mat_node_tree mat) in
  let '(r, nt) := rebuild_material_tree base_color metallic roughness nt in
  (match r with Ok _ => Ok key | Raise e => Raise e end,
   <[key := Material true (Some nt)]> materials).

End Materials.

(** ** The world block of build_scene (lines 148 to 155) *)
Module WorldSetup.
Import NodeTree Bpy.

(** From [for n in nt.nodes] to the second [links.new]. *)
Definition rebuild_world_tree (nt : node_tree) : node_tree :=
  let nt := remove_all_nodes nt in
  let '(out, nt) := nodes_new "ShaderNodeOutputWorld" nt in
  let '(bg, nt) := nodes_new "ShaderNodeBackground" nt in
  let '(sky, nt) := nodes_new "ShaderNodeTexSky" nt in
  let nt := set_prop sky "sun_elevation" (VNum (FRadians (FLit 45))) nt in
  let nt := set_input bg "Strength" (VNum (FLit (12 # 10))) nt in
  let nt := links_new sky "Color" bg "Color" nt in
  links_new bg "Background" out "Surface" nt.

(** Returns the name of the world that becomes [scene.world]. *)
Definition configure_world (worlds : gmap string world)
    : string * gmap string world :=
  let w := match worlds !! "World" with
           | Some w => w                  (* worlds.get("World") *)
           | None => World false None     (* worlds.new("World") *)
           end in
  let nt := tree_or default_world_tree (world_node_tree w) in
  ("World", <["World" := World true (Some (rebuild_world_tree nt))]> worlds).

End WorldSetup.

(** ** Collections and ensure_collection (lines 31 to 39) *)
Module Collections.
Import Host.

Record collection := Collection {
  children : list string;   (* names of the child collections *)
  objects : list nat        (* the linked objects, see [Objects] *)
}.

(** A collection object is either the scene's root collection
    ([scene.collection], which is not in [bpy.data.collections]) or a
    data-block of [bpy.data.collections], known by its name. *)
Inductive cref :=
  | SceneRoot
  | Named (name : string).

Record store := Store {
  collections : gmap string collection;   (* bpy.data.collections *)
  scene_collection : collection           (* bpy.context.scene.collection *)
}.

(** [c.objects.link(obj)] *)
Definition objects_link (c : cref) (obj : nat) (st : store) : store :=
  let add col := Collection (children col) (objects col ++ [obj]) in
  match c with
  | SceneRoot => Store (collections st) (add (scene_collection st))
  | Named n => Store (alter add n (collections st)) (scene_collection st)
  end.

Definition link_child (child : string) (c : collection) : collection :=
  Collection (children c ++ [child]) (objects c).

(** [p.children.link(col)] *)
Definition children_link (p : cref) (child : string) (st : store) : store :=
  match p with
  | SceneRoot => Store (collections st) (link_child child (scene_collection st))
  | Named pn => Store (alter (link_child child) pn (collections st)) (scene_collection st)
  end.

(** [collections.get(name)] finds the collection of exactly that name;
    [collections.new(name)] creates one under the name the host gives
    it. *)
Definition ensure_collection (h : naming) (name : string)
    (parent : option cref) (st : store) : cref * store :=
  match collections st !! name with
  | Some _ => (Named name, st)
  | None =>
      let key := h "Collection" name (dom (collections st)) in
      let st := Store (<[key := Collection [] []]> (collections st))
                      (scene_collection st) in
      match parent with
      | Some p => (Named key, children_link p key st)
      | None => (Named key, children_link SceneRoot key st)
      end
  end.

(** Calling ensure_collection once per parent in [ps], always with the
    same name. *)
Definition ensure_many (h : naming) (name : string) (ps : list (option cref))
    (st : store) : store :=
  fold_left (fun acc p => snd (ensure_collection h name p acc)) ps st.

End Collections.

(** ** Objects and their data (bpy.data.objects) *)
Module Objects.

Record bezier_point := BezierPoint {
  co : point;
  handle_left_type : string;
  handle_right_type : string
}.

Record spline := Spline {
  spline_type : string;
  bezier_points : list bezier_point;
  use_cyclic_u : bool
}.

(** Curve data: [use_cyclic_u] is an attribute of a spline, the curve
    data has none of that name. *)
Record curve := Curve {
  dimensions : string;
  splines : list spline;
  path_duration : Z;
  curve_materials : list string
}.

(** The attributes of curve data that the script assigns. *)
Inductive curve_attr :=
  | Dimensions
  | PathDuration
  | UseCyclicU.

(** [curve_data.attr = v] *)
Definition curve_setattr (attr : curve_attr) (v : value) (c : curve)
    : result curve :=
  match attr, v with
  | Dimensions, VStr d =>
      Ok (Curve d (splines c) (path_duration c) (curve_materials c))
  | Dimensions, _ => Raise (TypeError "dimensions")
  | PathDuration, VInt n =>
      Ok (Curve (dimensions c) (splines c) n (curve_materials c))
  | PathDuration, _ => Raise (TypeError "path_duration")
  | UseCyclicU, _ => Raise (AttributeError "use_cyclic_u")
  end.

(** The kinds of object data the script meets.  Meshes and curves carry
    a [materials] list, cameras do not. *)
Inductive obdata :=
  | MeshData (materials : list string)
  | CurveData (c : curve)
  | CameraData (lens : fexpr).

Record constraint := Constraint {
  con_type : string;
  con_target : option nat;
  use_fixed_location : bool;
  forward_axis : string;
  up_axis : string
}.

Record object := Object {
  obj_name : string;
  obj_data : option obdata;      (* None: an empty *)
  location : option point;       (* None: where the host put it *)
  constraints : list constraint
}.

(** The names in use in [bpy.data.objects]. *)
Definition object_names (objs : list object) : gset string :=
  list_to_set (obj_name <$> objs).

(** [obj.data.attr = v] for an object whose data is a curve. *)
Definition set_curve_attr (attr : curve_attr) (v : value) (o : object)
    : result object :=
  match obj_data o with
  | Some (CurveData c) =>
      match curve_setattr attr v c with
      | Ok c' => Ok (Object (obj_name o) (Some (CurveData c')) (location o)
                            (constraints o))
      | Raise e => Raise e
      end
  | _ => Raise (AttributeError "data")
  end.

(** [hasattr(obj.data, "materials")], with the list when it is there. *)
Definition data_materials (d : obdata) : option (list string) :=
  match d with
  | MeshData ms => Some ms
  | CurveData c => Some (curve_materials c)
  | CameraData _ => None
  end.

Definition set_data_materials (ms : list string) (d : obdata) : obdata :=
  match d with
  | MeshData _ => MeshData ms
  | CurveData c => CurveData (Curve (dimensions c) (splines c) (path_duration c) ms)
  | CameraData l => CameraData l
  end.

(** assign_material (lines 86 to 89).  Materials are known by name. *)
Definition assign_material (obj : object) (mat : string) : object :=
  match obj_data obj with
  | Some d =>
      match data_materials d with
      | Some ms =>
          let ms' := if Nat.eqb (length ms) 0 then ms ++ [mat]
                     else <[0 := mat]> ms in
          Object (obj_name obj) (Some (set_data_materials ms' d))
                 (location obj) (constraints obj)
      | None => obj
      end
  | None => obj
  end.

End Objects.

(** ** Module constants (lines 22 to 29) *)
Module Consts.
Definition FT_TO_M : fexpr := FLit 0.3048.
Definition PLOT_W_FT : fexpr := FLit 50.0.
Definition PLOT_D_FT : fexpr := FLit 40.0.
Definition PLOT_W : fexpr := FMul PLOT_W_FT FT_TO_M.
Definition PLOT_D : fexpr := FMul PLOT_D_FT FT_TO_M.
Definition FLOOR_HEIGHT : fexpr := FLit 3.2.
Definition SLAB_THICK : fexpr := FLit 0.20.
End Consts.

(** ** add_bezier_path (lines 59 to 70) and the paths of build_scene *)
Module Paths.
Import Host Collections Objects Consts.

(** What the host puts into a control point it creates. *)
Definition default_bezier_point : bezier_point :=
  BezierPoint (FLit 0, FLit 0, FLit 0) "FREE" "FREE".

(** [curve_data.splines.new(ty)]: a new spline has one control point. *)
Definition splines_new (ty : string) : spline :=
  Spline ty [default_bezier_point] false.

(** [spline.bezier_points.add(count)]: a count below zero adds
    nothing. *)
Definition bezier_points_add (count : Z) (sp : spline) : spline :=
  Spline (spline_type sp)
         (bezier_points sp ++ replicate (Z.to_nat count) default_bezier_point)
         (use_cyclic_u sp).

(** A control point as the loop leaves it. *)
Definition auto_point (p : point) : bezier_point := BezierPoint p "AUTO" "AUTO".

(** The loop [for i, (x,y,z) in enumerate(points)], from index [i]. *)
Fixpoint set_points (i : nat) (points : list point) (sp : spline)
    : result spline :=
  match points with
  | [] => Ok sp
  | p :: rest =>
      match bezier_points sp !! i with
      | None => Raise (IndexError "bezier_points")
      | Some _ =>
          set_points (S i) rest
            (Spline (spline_type sp)
               (<[i := auto_point p]> (bezier_points sp))
               (use_cyclic_u sp))
      end
  end.

(** [bpy.data.objects.new(name, data)] names the object as the host
    sees fit. *)
Definition add_bezier_path (h : naming) (name : string) (points : list point)
    (col : option cref) (objs : list object) (cs : store)
    : result (nat * list object * store) :=
  let spline := splines_new "BEZIER" in
  let spline := bezier_points_add (Z.of_nat (length points) - 1) spline in
  spline ← set_points 0 points spline;
  let curve_data := Curve "3D" [spline] 100 [] in
  let curve_obj := length objs in
  let objs := objs ++ [Object (h "Object" name (object_names objs))
                              (Some (CurveData curve_data)) None []] in
  let target := match col with Some c => c | None => SceneRoot end in
  Ok (curve_obj, objs, objects_link target curve_obj cs).

Definition walk_pts : list point := [
  (FMul PLOT_W (FLit 0.1), FLit 0.8, FLit 1.5);
  (FMul PLOT_W (FLit 0.2), FMul PLOT_D (FLit 0.2), FLit 1.6);
  (FMul PLOT_W (FLit 0.4), FMul PLOT_D (FLit 0.6), FAdd FLOOR_HEIGHT (FLit 1.6));
  (FMul PLOT_W (FLit 0.6), FMul PLOT_D (FLit 0.5), FAdd FLOOR_HEIGHT (FLit 1.8));
  (FMul PLOT_W (FLit 0.45), FMul PLOT_D (FLit 0.4),
     FAdd (FMul (FLit 2) (FAdd FLOOR_HEIGHT SLAB_THICK)) (FLit 1.8));
  (FMul PLOT_W (FLit 0.55), FMul PLOT_D (FLit 0.3),
     FAdd (FMul (FLit 2) (FAdd FLOOR_HEIGHT SLAB_THICK)) (FLit 1.8));
  (FAdd PLOT_W (FLit 5.0), FMul PLOT_D (FLit 0.5), FAdd FLOOR_HEIGHT (FLit 2.0))
].

Definition center : point :=
  (FSingle (FDiv PLOT_W (FLit 2)), FSingle (FDiv PLOT_D (FLit 2)),
   FSingle (FAdd FLOOR_HEIGHT (FLit 2.0))).
Definition center_x : fexpr := fst (fst center).
Definition center_y : fexpr := snd (fst center).
Definition center_z : fexpr := snd center.
Definition rad : fexpr := FMul (FMax PLOT_W PLOT_D) (FLit 0.9).

Definition aero_pts : list point := [
  (FAdd center_x rad, center_y, center_z);
  (center_x, FAdd center_y rad, center_z);
  (FSub center_x rad, center_y, center_z);
  (center_x, FSub center_y rad, center_z);
  (FAdd center_x rad, center_y, center_z)
].

(** Lines 158 to 179 of build_scene.  A raise keeps the objects and
    collections as they are at that line; line 179 assigns
    [use_cyclic_u] on the curve data. *)
Definition build_paths (h : naming) (col_cam_walk col_cam_aero : cref)
    (objs : list object) (cs : store)
    : result (nat * nat) * list object * store :=
  match add_bezier_path h "Walkthrough_Path" walk_pts (Some col_cam_walk) objs cs with
  | Raise e => (Raise e, objs, cs)
  | Ok (walk_curve, objs, cs) =>
  match add_bezier_path h "Aerial_Spin_Path" aero_pts (Some col_cam_aero) objs cs with
  | Raise e => (Raise e, objs, cs)
  | Ok (aero_curve, objs, cs) =>
  match objs !! aero_curve with
  | None => (Raise (IndexError "objects"), objs, cs)
  | Some o =>
      match set_curve_attr UseCyclicU (VBool true) o with
      | Raise e => (Raise e, objs, cs)
      | Ok o' => (Ok (walk_curve, aero_curve), <[aero_curve := o']> objs, cs)
      end
  end end end.

End Paths.

(** ** The render settings of build_scene (lines 102 to 123)

    The scene's settings are kept as a map from attribute path (below
    [scene]) to value; an assignment is an insertion. *)
Module Render.

Definition setattr (path : string) (v : value)
    (scene : gmap string value) : gmap string value :=
  <[path := v]> scene.

(** The assignments in source order; [a; b] on one line is a then b. *)
Definition render_assignments : list (string * value) := [
  ("render.fps", VInt 30);
  ("render.image_settings.file_format", VStr "FFMPEG");
  ("render.ffmpeg.format", VStr "MPEG4");
  ("render.ffmpeg.codec", VStr "H264");
  ("render.ffmpeg.constant_rate_factor", VStr "HIGH");
  ("render.ffmpeg.ffmpeg_preset", VStr "GOOD");
  ("render.resolution_x", VInt 1920);
  ("render.resolution_y", VInt 1080);
  ("render.resolution_percentage", VInt 100);
  ("frame_start", VInt 0);
  ("frame_end", VInt 600);
  ("display_settings.display_device", VStr "sRGB");
  ("view_settings.view_transform", VStr "Filmic");
  ("view_settings.look", VStr "Medium High Contrast");
  ("render.engine", VStr "CYCLES");
  ("cycles.device", VStr "CPU");
  ("cycles.samples", VInt 256);
  ("cycles.use_denoising", VBool true);
  ("render.use_motion_blur", VBool true);
  ("render.motion_blur_shutter", VNum (FLit 0.5));
  ("render.filepath", VStr "//renders/walkthrough_preview.mp4")
].

Definition configure_render (scene : gmap string value) : gmap string value :=
  fold_left (fun sc '(path, v) => setattr path v sc) render_assignments scene.

End Render.

(** ** POSIX path strings (os.path) *)
Module Path.

Definition is_sep (c : ascii) : bool := Ascii.eqb c "/"%char.

Fixpoint ends_with_sep (s : string) : bool :=
  match s with
  | EmptyString => false
  | String c EmptyString => is_sep c
  | String _ r => ends_with_sep r
  end.

Definition starts_with_sep (s : string) : bool :=
  match s with String c _ => is_sep c | EmptyString => false end.

(** [os.path.join(a, b)] *)
Definition join (a b : string) : string :=
  if starts_with_sep b then b
  else if String.eqb a "" || ends_with_sep a then a +:+ b
  else a +:+ "/" +:+ b.

(** What follows the last separator seen, [cur] being what has been
    read since. *)
Fixpoint basename_from (cur s : string) : string :=
  match s with
  | EmptyString => cur
  | String c r =>
      if is_sep c then basename_from "" r
      else basename_from (cur +:+ String c "") r
  end.

(** [os.path.basename(p)] *)
Definition basename (p : string) : string := basename_from "" p.

(** The components of a path, empty ones dropped; [cur] is the
    component being read. *)
Fixpoint components_from (cur s : string) : list string :=
  match s with
  | EmptyString => if String.eqb cur "" then [] else [cur]
  | String c r =>
      if is_sep c then
        (if String.eqb cur "" then [] else [cur]) ++ components_from "" r
      else components_from (cur +:+ String c "") r
  end.

(** An absolute path starts at the root, written as the component
    ["/"]; a relative one starts at the working directory.  Names are
    taken as they stand: [.] and [..] are not interpreted. *)
Definition components (p : string) : list string :=
  (if starts_with_sep p then ["/"] else []) ++ components_from "" p.

End Path.

(** ** The file system *)
Module FS.
Import Path.

#[warnings="-register-all"] Inductive content :=
  | Text (s : string)
  | Fbx (scene : list Objects.object)       (* what the exporter wrote *)
  | Zip (entries : list (string * content)). (* archive name, stored bytes *)

Inductive fnode :=
  | Dir
  | File (c : content).

(** Keys are component lists.  The working directory [[]] and the
    root [["/"]] are directories and always exist. *)
Definition always_there (p : list string) : bool :=
  bool_decide (p = []) || bool_decide (p = ["/"]).

Definition lookup_node (fs : gmap (list string) fnode) (p : list string)
    : option fnode :=
  if always_there p then Some Dir else fs !! p.


Definition isdir (p : list string) (fs : gmap (list string) fnode) : bool :=
  match lookup_node fs p with Some Dir => true | _ => false end.

Definition exists_ (p : list string) (fs : gmap (list string) fnode) : bool :=
  match lookup_node fs p with Some _ => true | None => false end.

(** [os.mkdir(p)], [rp] being [p] reversed. *)
Definition mkdir (rp : list string) (fs : gmap (list string) fnode)
    : result (gmap (list string) fnode) :=
  match lookup_node fs (rev rp) with
  | Some _ => Raise (FileExistsError (rev rp))
  | None =>
      match lookup_node fs (rev (tail rp)) with
      | Some Dir => Ok (<[rev rp := Dir]> fs)
      | Some (File _) => Raise (NotADirectoryError (rev rp))
      | None => Raise (FileNotFoundError (rev rp))
      end
  end.

(** [os.makedirs(p, exist_ok=True)] on the reversed path: make the
    missing parent first (a parent that turns out to exist is fine),
    then the directory itself, and accept that it exists when it is a
    directory. *)
Fixpoint makedirs (rp : list string) (fs : gmap (list string) fnode)
    : result (gmap (list string) fnode) :=
  match rp with
  | [] => Ok fs
  | _ :: parent =>
      let made :=
        match parent with
        | [] => Ok fs
        | _ =>
            if exists_ (rev parent) fs then Ok fs
            else match makedirs parent fs with
                 | Ok fs' => Ok fs'
                 | Raise (FileExistsError _) => Ok fs
                 | Raise e => Raise e
                 end
        end in
      fs ← made;
      match mkdir rp fs with
      | Ok fs' => Ok fs'
      | Raise e => if isdir (rev rp) fs then Ok fs else Raise e
      end
  end.

(** [open(p, "w")] with everything written, then closed. *)
Definition write_file (p : list string) (c : content)
    (fs : gmap (list string) fnode) : result (gmap (list string) fnode) :=
  match lookup_node fs p with
  | Some Dir => Raise (IsADirectoryError p)
  | _ =>
      match lookup_node fs (removelast p) with
      | Some Dir => Ok (<[p := File c]> fs)
      | Some (File _) => Raise (NotADirectoryError p)
      | None => Raise (FileNotFoundError p)
      end
  end.

Definition read_file (p : list string) (fs : gmap (list string) fnode)
    : result content :=
  match lookup_node fs p with
  | Some (File c) => Ok c
  | Some Dir => Raise (IsADirectoryError p)
  | None => Raise (FileNotFoundError p)
  end.

(** [os.path.isdir(p)]: the empty string names nothing. *)
Definition isdir_path (p : string) (fs : gmap (list string) fnode) : bool :=
  negb (String.eqb p "") && isdir (components p) fs.

(** [os.makedirs(p, exist_ok=True)] *)
Definition makedirs_path (p : string) (fs : gmap (list string) fnode)
    : result (gmap (list string) fnode) :=
  if String.eqb p "" then Raise (FileNotFoundError [])
  else makedirs (rev (components p)) fs.

End FS.

(** ** Operations of the host and the system, as seen from outside *)
Inductive event :=
  | SelectAll
  | ExportFbx (filepath : string)
  | OpenWrite (path : string)
  | ZipOpen (path : string)
  | ZipWrite (src arcname : string)
  | MakeDirs (path : string)
  | MarkerAdd
  | Print (line : string)
  | Call (function : string).

Definition is_fbx_export (e : event) : bool :=
  match e with ExportFbx _ => true | _ => false end.

(** ** export_fbx_and_zip (lines 212 to 237) *)
Module Exporter.
Import Path FS.

Record io := IO {
  fs : gmap (list string) fnode;
  trace : list event
}.

(** State and exceptions: a raise keeps the state it was raised in. *)
Definition M (A : Type) : Type := io -> result A * io.

#[export] Instance M_ret : MRet M := fun A a st => (Ok a, st).
#[export] Instance M_bind : MBind M := fun A B k m st =>
  match m st with
  | (Ok a, st') => k a st'
  | (Raise e, st') => (Raise e, st')
  end.

Definition emit (e : event) : M unit :=
  fun st => (Ok tt, IO (fs st) (trace st ++ [e])).

(** What the environment does to an operation the script attempts:
    nothing, or it makes the operation fail with an exception. *)
Definition faults : Type := event -> option exn.

Definition no_faults : faults := fun _ => None.

(** The environment in which the FBX exporter fails and nothing else
    does. *)
Definition exporter_fails : faults := fun e =>
  if is_fbx_export e then Some (RuntimeError "export_scene.fbx") else None.

(** An operation of the host or the system: it is attempted, and fails
    when the environment says so. *)
Definition attempt {A} (f : faults) (e : event) (op : M A) : M A :=
  fun st =>
    let st := IO (fs st) (trace st ++ [e]) in
    match f e with
    | Some x => (Raise x, st)
    | None => op st
    end.

(** Run a file-system operation on the current files. *)
Definition on_fs (op : gmap (list string) fnode ->
                       result (gmap (list string) fnode)) : M unit :=
  fun st => match op (fs st) with
            | Ok fs' => (Ok tt, IO fs' (trace st))
            | Raise e => (Raise e, st)
            end.

Definition get_file (p : string) : M content :=
  fun st => (read_file (components p) (fs st), st).

(** The nested helper of lines 219 and 220, in the environment [f]. *)
Definition ensure_dir_in (f : faults) (p : string) : M unit :=
  fun st =>
    if negb (isdir_path p (fs st)) then
      attempt f (MakeDirs p) (on_fs (makedirs_path p)) st
    else (Ok tt, st).

(** ensure_dir where nothing fails from outside. *)
Definition ensure_dir (p : string) : M unit := ensure_dir_in no_faults p.

Definition readme_text : string :=
  "Duplex House FBX Export
=======================
" +:+ "Files:
- Duplex_House.fbx (FULL)
- Duplex_House_Lite.fbx (LITE)
".

(** [bpy.ops.export_scene.fbx(filepath=p, use_selection=True)]: the
    operator reports every failure, its own or that of the write, as a
    RuntimeError. *)
Definition export_scene_fbx (f : faults) (scene : list Objects.object)
    (p : string) : M unit :=
  fun st =>
    let st := IO (fs st) (trace st ++ [ExportFbx p]) in
    match f (ExportFbx p) with
    | Some _ => (Raise (RuntimeError "export_scene.fbx"), st)
    | None =>
        match write_file (components p) (Fbx scene) (fs st) with
        | Ok fs' => (Ok tt, IO fs' (trace st))
        | Raise _ => (Raise (RuntimeError "export_scene.fbx"), st)
        end
    end.

(** [z.write(src, arcname=arc)] into the archive at [zip_path]. *)
Definition zip_write (f : faults) (zip_path src arc : string) : M unit :=
  attempt f (ZipWrite src arc)
    (b ← get_file src;
     on_fs (fun fs =>
       match read_file (components zip_path) fs with
       | Ok (Zip es) => write_file (components zip_path) (Zip (es ++ [(arc, b)])) fs
       | Ok _ => write_file (components zip_path) (Zip [(arc, b)]) fs
       | Raise e => Raise e
       end)).

(** export_fbx_and_zip in the environment [f].  [blend_dir] is where
    [//] points: the directory of the .blend file with its trailing
    separator, or the empty string. *)
Definition export_in (f : faults) (blend_dir : string)
    (scene : list Objects.object) : M unit :=
  let EXPORT_DIR := blend_dir +:+ "exports/" in
  let FULL_FBX := join EXPORT_DIR "Duplex_House.fbx" in
  let LITE_FBX := join EXPORT_DIR "Duplex_House_Lite.fbx" in
  let ZIP_PATH := join EXPORT_DIR "Duplex_House_FBX.zip" in
  let README_PATH := join EXPORT_DIR "README_Import.txt" in
  _ ← ensure_dir_in f EXPORT_DIR;
  _ ← attempt f SelectAll (mret tt);
  _ ← export_scene_fbx f scene FULL_FBX;
  _ ← attempt f (OpenWrite README_PATH)
        (on_fs (write_file (components README_PATH) (Text readme_text)));
  _ ← attempt f (ZipOpen ZIP_PATH)
        (on_fs (write_file (components ZIP_PATH) (Zip [])));
  _ ← zip_write f ZIP_PATH FULL_FBX (basename FULL_FBX);
  _ ← zip_write f ZIP_PATH README_PATH (basename README_PATH);
  attempt f (Print ("✔ Export complete: " +:+ ZIP_PATH)) (mret tt).

(** export_fbx_and_zip where at most the exporter fails from outside
    ([fbx_ok] says whether it succeeds). *)
Definition export_fbx_and_zip (blend_dir : string) (fbx_ok : bool)
    (scene : list Objects.object) : M unit :=
  export_in (if fbx_ok then no_faults else exporter_fails) blend_dir scene.

End Exporter.

(** ** The whole script *)
Module Script.
Import Host NodeTree Bpy Collections Objects Consts Paths Exporter.

Record blender := Blender {
  materials : gmap string material;     (* bpy.data.materials *)
  worlds : gmap string world;           (* bpy.data.worlds *)
  colls : store;                        (* collections and the scene root *)
  objs : list object;                   (* bpy.data.objects *)
  scene : gmap string value;            (* settings of bpy.context.scene *)
  scene_world : option string;          (* scene.world *)
  scene_camera : option nat;            (* scene.camera *)
  active : option nat;                  (* view_layer.objects.active *)
  markers : list (string * Z)           (* scene.timeline_markers *)
}.

Record session := Session {
  bl : blender;
  sys : io
}.

Definition S (A : Type) : Type := session -> result A * session.

#[export] Instance S_ret : MRet S := fun A a st => (Ok a, st).
#[export] Instance S_bind : MBind S := fun A B k m st =>
  match m st with
  | (Ok a, st') => k a st'
  | (Raise e, st') => (Raise e, st')
  end.

Definition lift_io {A} (m : M A) : S A :=
  fun st => let '(r, io') := m (sys st) in (r, Session (bl st) io').

Definition get_bl : S blender := fun st => (Ok (bl st), st).
Definition put_bl (b : blender) : S unit := fun st => (Ok tt, Session b (sys st)).
Definition raise {A} (e : exn) : S A := fun st => (Raise e, st).

Definition set_materials m b := Blender m (worlds b) (colls b) (objs b) (scene b)
  (scene_world b) (scene_camera b) (active b) (markers b).
Definition set_worlds w b := Blender (materials b) w (colls b) (objs b) (scene b)
  (scene_world b) (scene_camera b) (active b) (markers b).
Definition set_colls c b := Blender (materials b) (worlds b) c (objs b) (scene b)
  (scene_world b) (scene_camera b) (active b) (markers b).
Definition set_objs o b := Blender (materials b) (worlds b) (colls b) o (scene b)
  (scene_world b) (scene_camera b) (active b) (markers b).
Definition set_scene s b := Blender (materials b) (worlds b) (colls b) (objs b) s
  (scene_world b) (scene_camera b) (active b) (markers b).
Definition set_scene_world w b := Blender (materials b) (worlds b) (colls b) (objs b)
  (scene b) w (scene_camera b) (active b) (markers b).
Definition set_scene_camera c b := Blender (materials b) (worlds b) (colls b) (objs b)
  (scene b) (scene_world b) c (active b) (markers b).
Definition set_active a b := Blender (materials b) (worlds b) (colls b) (objs b)
  (scene b) (scene_world b) (scene_camera b) a (markers b).
Definition set_markers m b := Blender (materials b) (worlds b) (colls b) (objs b)
  (scene b) (scene_world b) (scene_camera b) (active b) m.

Definition ensure_collection_s (h : naming) (name : string)
    (parent : option cref) : S cref :=
  b ← get_bl;
  let '(c, cs) := ensure_collection h name parent (colls b) in
  _ ← put_bl (set_colls cs b);
  mret c.

(** A raise of make_basic_material leaves the material as it is at the
    failing line. *)
Definition make_basic_material_s (h : naming) (name : string)
    (base_color metallic roughness : value) : S string :=
  b ← get_bl;
  let '(r, ms) := Materials.make_basic_material h name base_color metallic
                    roughness (materials b) in
  _ ← put_bl (set_materials ms b);
  match r with
  | Ok m => mret m
  | Raise e => raise e
  end.

Definition color (r g b a : Q) : value := VTuple [FLit r; FLit g; FLit b; FLit a].
Definition num (q : Q) : value := VNum (FLit q).

(** The nested add_camera of lines 182 to 186. *)
Definition add_camera (h : naming) (name : string) (loc : point) (lens : fexpr)
    (col : option cref) : S nat :=
  b ← get_bl;
  let cam_obj := length (objs b) in
  let target := match col with Some c => c | None => SceneRoot end in
  _ ← put_bl (set_colls (objects_link target cam_obj (colls b))
               (set_objs (objs b ++ [Object (h "Object" name (object_names (objs b)))
                                            (Some (CameraData lens)) (Some loc) []]) b));
  mret cam_obj.

Definition set_path_duration (frames : Z) (o : object) : object :=
  match set_curve_attr PathDuration (VInt frames) o with
  | Ok o' => o'
  | Raise _ => o
  end.

Definition add_constraint (c : constraint) (o : object) : object :=
  Object (obj_name o) (obj_data o) (location o) (constraints o ++ [c]).

(** The nested follow_path of lines 191 to 196.  The last line calls
    [bpy.ops.object.constraint_followpath_path_animate], and the host
    has no operator of that name: the call raises after the constraint
    is set up. *)
Definition follow_path (cam curve : nat) (frames : Z) : S unit :=
  b ← get_bl;
  let con := Constraint "FOLLOW_PATH" (Some curve) true "FORWARD_Y" "UP_Z" in
  let os := alter (add_constraint con) cam (objs b) in
  let os := alter (set_path_duration frames) curve os in
  _ ← put_bl (set_active (Some cam) (set_objs os b));
  raise (AttributeError "bpy.ops.object.constraint_followpath_path_animate").

(** set_active_camera (line 72) *)
Definition set_active_camera (cam_obj : nat) : S unit :=
  b ← get_bl; put_bl (set_scene_camera (Some cam_obj) b).

(** [bpy.ops.marker.add()] and the two assignments to the last marker. *)
Definition add_marker (name : string) (frame : Z) : S unit :=
  _ ← lift_io (emit MarkerAdd);
  b ← get_bl;
  put_bl (set_markers (markers b ++ [(name, frame)]) b).

(** build_scene: the statements of lines 102 to 206 in the order they
    are written.  (Line 124 is written at column 0 and the lines after
    it at column 4; what Python makes of that is [Layout.compile]'s
    business, see [run_script].) *)
Definition build_scene (h : naming) : S unit :=
  b ← get_bl;
  _ ← put_bl (set_scene (Render.configure_render (scene b)) b);
  let root := SceneRoot in
  col_ground ← ensure_collection_s h "Ground_Floor" (Some root);
  col_first ← ensure_collection_s h "First_Floor" (Some root);
  col_second ← ensure_collection_s h "Second_Floor" (Some root);
  col_facade ← ensure_collection_s h "Exterior_Facade" (Some root);
  col_furn ← ensure_collection_s h "Furniture" (Some root);
  col_land ← ensure_collection_s h "Landscape" (Some root);
  col_cam_walk ← ensure_collection_s h "Cameras_Walkthrough" (Some root);
  col_cam_aero ← ensure_collection_s h "Cameras_Aerial" (Some root);
  col_misc ← ensure_collection_s h "Renders" (Some root);
  mat_wall ← make_basic_material_s h "Wall_Paint" (color 0.92 0.92 0.92 1) (num 0.0) (num 0.6);
  mat_glass ← make_basic_material_s h "Glass_Simple" (color 0.8 0.9 1.0 0.05) (num 0.0) (num 0.05);
  mat_stone ← make_basic_material_s h "Stone_Cladding" (color 0.5 0.5 0.5 1) (num 0.0) (num 0.9);
  mat_wood ← make_basic_material_s h "Wood" (color 0.5 0.35 0.2 1) (num 0.0) (num 0.5);
  mat_grass ← make_basic_material_s h "Grass" (color 0.3 0.5 0.3 1) (num 0.0) (num 0.9);
  mat_asph ← make_basic_material_s h "Driveway" (color 0.1 0.1 0.1 1) (num 0.0) (num 0.8);
  b ← get_bl;
  let '(world, ws) := WorldSetup.configure_world (worlds b) in
  _ ← put_bl (set_scene_world (Some world) (set_worlds ws b));
  b ← get_bl;
  let '(r, os, cs) := build_paths h col_cam_walk col_cam_aero (objs b) (colls b) in
  _ ← put_bl (set_colls cs (set_objs os b));
  match r with
  | Raise e => raise e
  | Ok (walk_curve, aero_curve) =>
      cam_walk ← add_camera h "Camera_Walkthrough"
                   (FMul PLOT_W (FLit 0.1), FLit 0.8, FLit 1.6) (FLit 18)
                   (Some col_cam_walk);
      cam_aero ← add_camera h "Camera_Aerial"
                   (FAdd center_x rad, center_y, center_z) (FLit 35)
                   (Some col_cam_aero);
      _ ← follow_path cam_walk walk_curve 600;
      _ ← follow_path cam_aero aero_curve 450;
      _ ← set_active_camera cam_walk;
      _ ← add_marker "Walkthrough" 0;
      _ ← add_marker "Aerial Spin" 0;
      lift_io (emit (Print "✔ Scene built."))
  end.

(** The [__main__] block, lines 242 to 245.  [blend_dir] and [fbx_ok]
    are the host's: where [//] points and whether the exporter
    succeeds. *)
Definition main (h : naming) (blend_dir : string) (fbx_ok : bool) : S unit :=
  _ ← lift_io (emit (Call "build_scene"));
  _ ← build_scene h;
  _ ← lift_io (emit (Call "export_fbx_and_zip"));
  b ← get_bl;
  _ ← lift_io (export_fbx_and_zip blend_dir fbx_ok (objs b));
  lift_io (emit (Print "✔ Done: scene built and FBX exports zipped. Save your .blend to keep changes.")).

(** Running the file: Python compiles the whole text first, and a
    syntax error means that not one statement is executed. *)
Definition run_script (h : naming) (blend_dir : string) (fbx_ok : bool) : S unit :=
  match Layout.compile Layout.source_lines with
  | Some (Layout.UnexpectedIndent n)
  | Some (Layout.ExpectedIndentedBlock n)
  | Some (Layout.InconsistentDedent n) => raise (SyntaxError n)
  | None => main h blend_dir fbx_ok
  end.

End Script.

(** ** Invariants of the host's data *)
Module Invariants.
Import NodeTree Bpy Collections Objects.

(** Every link of every material tree starts at a node of its tree. *)
Definition trees_closed (materials : gmap string material) : Prop :=
  forall n m t, materials !! n = Some m -> mat_node_tree m = Some t ->
                links_closed t.

#[export] Instance cref_eq_dec : EqDecision cref.
Proof. solve_decision. Defined.

(** The collection behind a reference, when there is one. *)
Definition collection_at (c : cref) (st : store) : option collection :=
  match c with
  | SceneRoot => Some (scene_collection st)
  | Named n => collections st !! n
  end.

(** Collections link only objects that exist: every linked identifier
    is below [n], the number of objects. *)
Definition links_below (n : nat) (st : store) : Prop :=
  forall c col o, collection_at c st = Some col -> o ∈ objects col -> o < n.

End Invariants.

(** ** Failures that nothing handles *)
Module Propagation.
Import Exporter.

(** The exception that a failure of operation [e] with [x] surfaces
    as: the FBX exporter reports every failure as a RuntimeError, any
    other operation raises what went wrong. *)
Definition surfaces_as (e : event) (x : exn) : exn :=
  if is_fbx_export e then RuntimeError "export_scene.fbx" else x.

(** [m] handles no failure of the environment [f]: the operations it
    attempts extend the trace, and one that [f] makes fail is the last
    of them, its exception being the result of [m]. *)
Definition unhandled (f : faults) {A} (m : M A) : Prop :=
  forall st, exists evs,
    trace (snd (m st)) = trace st ++ evs /\
    forall e x, e ∈ evs -> f e = Some x ->
      last evs = Some e /\ fst (m st) = Raise (surfaces_as e x).

(** [m] attempts no operation of its own. *)
Definition quiet {A} (m : M A) : Prop :=
  forall st, trace (snd (m st)) = trace st.

End Propagation.

(** ** new_cube (lines 41 to 48) and new_plane (lines 50 to 57) *)
Module Primitives.
Import Host Collections Objects Invariants.

(** The geometry a mesh primitive operator creates. *)
Inductive primitive :=
  | CubeMesh      (* primitive_cube_add: 8 vertices, 6 faces *)
  | PlaneMesh.    (* primitive_plane_add: 4 vertices, 1 face *)

(** The host's name for a primitive. *)
Definition primitive_name (g : primitive) : string :=
  match g with CubeMesh => "Cube" | PlaneMesh => "Plane" end.

(** What the two functions read and write: the objects, the
    collections, the scale of each object, the view layer's active
    collection and active object, and the geometry of each mesh that an
    operator created. *)
Record view := View {
  v_objs : list object;
  v_colls : store;
  v_scale : gmap nat point;
  v_active_collection : cref;
  v_active_object : option nat;
  v_geometry : gmap nat primitive
}.

(** [obj.name in col.objects].  The host keeps object names unique, so
    looking an object's own name up in a collection finds that object
    or nothing: membership is by identity. *)
Definition in_objects (c : cref) (o : nat) (st : store) : bool :=
  match collection_at c st with
  | Some col => bool_decide (o ∈ objects col)
  | None => false
  end.

Definition add_object (o : nat) (col : collection) : collection :=
  Collection (children col) (objects col ++ [o]).

Definition drop_object (o : nat) (col : collection) : collection :=
  Collection (children col) (filter (fun x => x <> o) (objects col)).

(** [c.objects.unlink(obj)]: an error when the object is not linked. *)
Definition objects_unlink (c : cref) (o : nat) (st : store) : result store :=
  if in_objects c o st then
    Ok (match c with
        | SceneRoot => Store (collections st) (drop_object o (scene_collection st))
        | Named n => Store (alter (drop_object o) n (collections st))
                           (scene_collection st)
        end)
  else Raise (RuntimeError "Object not in collection").

(** [c.objects.link(obj)]: an error when the object is linked already. *)
Definition objects_link_new (c : cref) (o : nat) (st : store) : result store :=
  if in_objects c o st then Raise (RuntimeError "Object already in collection")
  else Ok (objects_link c o st).

(** [bpy.ops.mesh.primitive_*_add(location=loc)]: a new mesh object of
    geometry [g] under the name the host gives it, linked to the active
    collection and made the active object. *)
Definition primitive_add (h : naming) (g : primitive) (loc : point)
    (st : view) : view :=
  let obj := length (v_objs st) in
  View (v_objs st ++ [Object (h "Object" (primitive_name g) (object_names (v_objs st)))
                             (Some (MeshData [])) (Some loc) []])
       (objects_link (v_active_collection st) obj (v_colls st))
       (v_scale st) (v_active_collection st) (Some obj)
       (<[obj := g]> (v_geometry st)).

(** [obj.name = name]: the host makes the name unique among the other
    objects. *)
Definition rename (h : naming) (name : string) (obj : nat)
    (objs : list object) : list object :=
  alter (fun o => Object (h "Object" name (object_names (delete obj objs)))
                         (obj_data o) (location o) (constraints o))
        obj objs.

(** The last statement of both functions (lines 46-47 and 55-56):
    [if col and obj.name not in col.objects:
       col.objects.link(obj); scene.collection.objects.unlink(obj)].
    A raise keeps what was done before it. *)
Definition move_to (col : option cref) (obj : nat) (st : view)
    : result unit * view :=
  match col with
  | Some c =>
      if negb (in_objects c obj (v_colls st)) then
        match objects_link_new c obj (v_colls st) with
        | Raise e => (Raise e, st)
        | Ok cs1 =>
            let st1 := View (v_objs st) cs1 (v_scale st)
                            (v_active_collection st) (v_active_object st)
                            (v_geometry st) in
            match objects_unlink SceneRoot obj cs1 with
            | Raise e => (Raise e, st1)
            | Ok cs2 => (Ok tt, View (v_objs st) cs2 (v_scale st)
                                     (v_active_collection st) (v_active_object st)
                                     (v_geometry st))
            end
        end
      else (Ok tt, st)
  | None => (Ok tt, st)
  end.

Definition half (a : fexpr) : fexpr := FDiv a (FLit 2).

(** The statements before the last one: create, take the active
    object, name it, scale it. *)
Definition create (h : naming) (g : primitive) (name : string)
    (scale : point) (loc : point) (st : view) : nat * view :=
  let st := primitive_add h g loc st in
  let obj := match v_active_object st with Some o => o | None => 0 end in
  (obj,
   View (rename h name obj (v_objs st)) (v_colls st)
        (<[obj := scale]> (v_scale st))
        (v_active_collection st) (v_active_object st) (v_geometry st)).

Definition new_cube (h : naming) (name : string) (size : fexpr * fexpr * fexpr)
    (loc : point) (col : option cref) (st : view) : result nat * view :=
  let '(sx, sy, sz) := size in
  let '(obj, st) := create h CubeMesh name (half sx, half sy, half sz) loc st in
  match move_to col obj st with
  | (Ok _, st) => (Ok obj, st)
  | (Raise e, st) => (Raise e, st)
  end.

Definition new_plane (h : naming) (name : string) (size : fexpr * fexpr)
    (loc : point) (col : option cref) (st : view) : result nat * view :=
  let '(sx, sy) := size in
  let '(obj, st) := create h PlaneMesh name (half sx, half sy, FLit 1) loc st in
  match move_to col obj st with
  | (Ok _, st) => (Ok obj, st)
  | (Raise e, st) => (Raise e, st)
  end.

End Primitives.

(** ** What build_scene leaves behind *)
Module Built.
Import Host NodeTree Objects Paths Consts.

(** The tree make_basic_material leaves, its first node numbered [k]. *)
Definition material_tree (k : nat) (base_color metallic roughness : value)
    : node_tree :=
  Tree [Node k "ShaderNodeOutputMaterial" ∅ ∅;
        Node (S k) "ShaderNodeBsdfPrincipled"
          (<["Roughness" := roughness]>
             (<["Metallic" := metallic]> (<["Base Color" := base_color]> ∅))) ∅]
       [Link (S k) "BSDF" k "Surface"]
       (S (S k)).

(** The tree make_basic_material leaves when the colour is rejected at
    line 80: the two new nodes, nothing assigned, nothing linked. *)
Definition unfinished_material_tree (k : nat) : node_tree :=
  Tree [Node k "ShaderNodeOutputMaterial" ∅ ∅;
        Node (S k) "ShaderNodeBsdfPrincipled" ∅ ∅]
       []
       (S (S k)).

(** The tree the world block leaves, its first node numbered [k]. *)
Definition world_tree (k : nat) : node_tree :=
  Tree [Node k "ShaderNodeOutputWorld" ∅ ∅;
        Node (S k) "ShaderNodeBackground"
          (<["Strength" := VNum (FLit (12 # 10))]> ∅) ∅;
        Node (S (S k)) "ShaderNodeTexSky" ∅
          (<["sun_elevation" := VNum (FRadians (FLit 45))]> ∅)]
       [Link (S (S k)) "Color" (S k) "Color";
        Link (S k) "Background" k "Surface"]
       (S (S (S k))).

(** A path object as add_bezier_path leaves it: one spline through the
    given points, not cyclic, the host's default duration. *)
Definition path_object (name : string) (points : list point) : object :=
  Object name
    (Some (CurveData (Curve "3D" [Spline "BEZIER" (auto_point <$> points) false]
                            100 [])))
    None [].

(** The two objects that exist when build_scene stops at line 179,
    [objs] being the objects before the run. *)
Definition walk_object (h : naming) (objs : list object) : object :=
  path_object (h "Object" "Walkthrough_Path" (object_names objs)) walk_pts.

Definition aero_object (h : naming) (objs : list object) : object :=
  path_object (h "Object" "Aerial_Spin_Path"
                 (object_names (objs ++ [walk_object h objs]))) aero_pts.

Definition built_objects (h : naming) (objs : list object) : list object :=
  [walk_object h objs; aero_object h objs].

Definition built_collections : gset string :=
  {[ "Ground_Floor"; "First_Floor"; "Second_Floor"; "Exterior_Facade";
     "Furniture"; "Landscape"; "Cameras_Walkthrough"; "Cameras_Aerial";
     "Renders" ]}.

Definition built_materials : gset string :=
  {[ "Wall_Paint"; "Glass_Simple"; "Stone_Cladding"; "Wood"; "Grass";
     "Driveway" ]}.

End Built.

(** ** Re-indenting a line of the source *)
Module Relayout.
Import Layout.

(** The file with line [line] moved to column [col]. *)
Definition reindent (line col : nat) (ls : list logical_line)
    : list logical_line :=
  (fun l => if Nat.eqb (lineno l) line then Line line col (kind l) else l) <$> ls.

End Relayout.

(** ** A small scene for examples *)
Module Samples.
Import Collections Objects Primitives Exporter Script.

(** One collection under the scene root, nothing linked. *)
Definition one_collection : store :=
  Store {[ "Ground_Floor" := Collection [] [] ]} (Collection ["Ground_Floor"] []).

(** Two collections under the scene root, nothing linked. *)
Definition two_collections : store :=
  Store (<[ "Furniture" := Collection [] [] ]>
           {[ "Ground_Floor" := Collection [] [] ]})
        (Collection ["Ground_Floor"; "Furniture"] []).

(** No objects yet; the active collection is [active]. *)
Definition empty_view (cs : store) (active : cref) : view :=
  View [] cs ∅ active None ∅.

(** A session with nothing in it: no data-blocks, no files. *)
Definition empty_session : session :=
  Session (Blender ∅ ∅ (Store ∅ (Collection [] [])) [] ∅ None None None [])
          (IO ∅ []).

End Samples.

(** * Properties *)

(** ** Node trees *)
Section NodeTreeFacts.
Import NodeTree.

Lemma filter_all {A} (P : A -> Prop) `{!forall x, Decision (P x)} (l : list A) :
  (forall x, x ∈ l -> P x) -> filter P l = l.
Proof.
  induction l as [|a l IH]; intros Hall; [done|].
  rewrite filter_cons_True by (apply Hall; left).
  f_equal. apply IH. intros x Hx. apply Hall. by right.
Qed.

Lemma filter_none {A} (P : A -> Prop) `{!forall x, Decision (P x)} (l : list A) :
  (forall x, x ∈ l -> ~ P x) -> filter P l = [].
Proof.
  induction l as [|a l IH]; intros Hall; [done|].
  rewrite filter_cons_False by (apply Hall; left).
  apply IH. intros x Hx. apply Hall. by right.
Qed.

Lemma fold_nodes_remove (ns : list node) (t : node_tree) :
  fold_left (fun acc n => nodes_remove (node_id n) acc) ns t =
  Tree (filter (fun n => node_id n ∉ (node_id <$> ns)) (nodes t))
       (filter (fun l => (from_node l ∉ node_id <$> ns) /\ (to_node l ∉ node_id <$> ns))
               (links t))
       (next_id t).
Proof.
  revert t. induction ns as [|n ns IH]; intros t; simpl.
  - destruct t as [nd lk nx]; simpl. f_equal.
    + symmetry. apply filter_all. intros x _. apply not_elem_of_nil.
    + symmetry. apply filter_all. intros x _. split; apply not_elem_of_nil.
  - rewrite IH. unfold nodes_remove; simpl. f_equal.
    + rewrite list_filter_filter. apply list_filter_iff. intros x.
      rewrite not_elem_of_cons. tauto.
    + rewrite list_filter_filter. apply list_filter_iff. intros x.
      rewrite !not_elem_of_cons. tauto.
Qed.

Lemma remove_all_nodes_closed (t : node_tree) :
  links_closed t -> remove_all_nodes t = Tree [] [] (next_id t).
Proof.
  intros Hc. unfold remove_all_nodes. rewrite fold_nodes_remove. f_equal.
  - apply filter_none. intros n Hn Hnot. apply Hnot.
    by apply list_elem_of_fmap_2.
  - apply filter_none. intros l Hl [Hnot _]. apply Hnot.
    unfold links_closed in Hc. rewrite Forall_forall in Hc. by apply Hc.
Qed.

End NodeTreeFacts.

(** ** The host's names *)
Section HostFacts.
Import Host.

Lemma length_append (a b : string) :
  String.length (a +:+ b) = String.length a + String.length b.
Proof. induction a as [|c a IH]; simpl; [done|]. by rewrite IH. Qed.

Lemma substring_all (s : string) (n : nat) :
  String.length s <= n -> substring 0 n s = s.
Proof.
  revert n. induction s as [|c s IH]; intros [|n] Hn; simpl in *; try done; try lia.
  f_equal. apply IH. lia.
Qed.

Lemma longer_than_each (l : list string) (s : string) :
  s ∈ l -> String.length s < String.length (foldr String.append "x" l).
Proof.
  induction l as [|a l IH]; intros Hs; [by apply elem_of_nil in Hs|].
  simpl. rewrite length_append.
  apply elem_of_cons in Hs as [->|Hs]; [|specialize (IH Hs); lia].
  clear IH. induction l as [|b l IH]; simpl; [lia|].
  rewrite length_append. lia.
Qed.

Lemma longer_than_all_fresh (used : gset string) : longer_than_all used ∉ used.
Proof.
  intros Hin. apply elem_of_elements in Hin.
  apply longer_than_each in Hin. unfold longer_than_all in Hin. lia.
Qed.

Lemma first_free_fresh (base : string) (used : gset string) (tries k : nat)
    (name : string) :
  first_free base used k tries = Some name -> name ∉ used.
Proof.
  revert k. induction tries as [|tries IH]; intros k; simpl; [done|].
  case_bool_decide as Hin; [apply IH|]. by intros [= <-].
Qed.

Lemma blender_names_fresh : fresh blender_names.
Proof.
  intros d r used. unfold blender_names.
  case_bool_decide as Hin; [|done].
  destruct (first_free _ used 1 999) as [name|] eqn:Hff.
  - by eapply first_free_fresh.
  - apply longer_than_all_fresh.
Qed.

Example blender_names_counts :
  blender_names "Object" "Cube" {[ "Cube"; "Cube.001" ]} = "Cube.002" /\
  blender_names "Object" "" {[ "Cube" ]} = "Object".
Proof. split; reflexivity. Qed.

Lemma blender_names_exact : exact blender_names.
Proof.
  intros d r used Hv Hr. unfold blender_names, valid_name in *.
  apply andb_true_iff in Hv as [Hne Hlen].
  apply negb_true_iff in Hne. rewrite Hne.
  apply Nat.leb_le in Hlen. rewrite substring_all by done.
  by rewrite bool_decide_eq_false_2.
Qed.

End HostFacts.

(** ** make_basic_material *)
Section MaterialFacts.
Import Host NodeTree Bpy Materials Built.

Lemma rebuild_material_tree_closed (bc m r : value) (nt : node_tree) :
  links_closed nt ->
  check_value ColorSocket bc = Ok tt ->
  check_value FloatSocket m = Ok tt ->
  check_value FloatSocket r = Ok tt ->
  rebuild_material_tree bc m r nt =
    (Ok tt, material_tree (next_id nt) bc m r).
Proof.
  intros Hc Hbc Hm Hr. unfold rebuild_material_tree.
  rewrite (remove_all_nodes_closed _ Hc).
  unfold assign_default_value, nodes_new; cbn -[check_value].
  rewrite Hbc; cbn -[check_value]. rewrite Hm; cbn -[check_value]. rewrite Hr.
  unfold material_tree, set_input, update_node, links_new; simpl.
  repeat (case_decide; simpl in *; try lia). done.
Qed.

(** A colour that the host rejects stops the body at line 80. *)
Lemma rebuild_material_tree_rejected (bc m r : value) (nt : node_tree) (e : exn) :
  links_closed nt ->
  check_value ColorSocket bc = Raise e ->
  rebuild_material_tree bc m r nt =
    (Raise e, unfinished_material_tree (next_id nt)).
Proof.
  intros Hc Hbc. unfold rebuild_material_tree.
  rewrite (remove_all_nodes_closed _ Hc).
  unfold assign_default_value, nodes_new; cbn -[check_value]. by rewrite Hbc.
Qed.

(** Whatever the values, the tree that is left is closed. *)
Lemma rebuild_material_tree_links (bc m r : value) (nt : node_tree) :
  links_closed nt ->
  links_closed (snd (rebuild_material_tree bc m r nt)).
Proof.
  intros Hc. unfold rebuild_material_tree.
  rewrite (remove_all_nodes_closed _ Hc).
  unfold assign_default_value, nodes_new; cbn -[check_value].
  destruct (check_value ColorSocket bc); cbn -[check_value]; [|by constructor].
  destruct (check_value FloatSocket m); cbn -[check_value]; [|by constructor].
  destruct (check_value FloatSocket r); cbn -[check_value]; [|by constructor].
  unfold links_closed, links_new, set_input, update_node; simpl.
  repeat (case_decide; simpl in *; try lia).
  repeat constructor.
Qed.

Lemma default_material_tree_closed : links_closed default_material_tree.
Proof. repeat constructor. Qed.

Lemma material_tree_of_closed (h : naming) (name : string)
    (materials : gmap string material) :
  (forall m t, materials !! name = Some m -> mat_node_tree m = Some t ->
               links_closed t) ->
  links_closed
    (tree_or default_material_tree
       (mat_node_tree
          (snd (match materials !! name with
                | Some m => (name, m)
                | None => (h "Material" name (dom materials), Material false None)
                end)))).
Proof.
  intros Hwf. destruct (materials !! name) as [m|] eqn:Hm; simpl.
  - destruct (mat_node_tree m) as [t|] eqn:Ht; simpl.
    + by eapply Hwf.
    + apply default_material_tree_closed.
  - apply default_material_tree_closed.
Qed.

Lemma make_basic_material_eq (h : naming) (name : string) (bc m r : value)
    (materials : gmap string material) :
  make_basic_material h name bc m r materials =
    let km := match materials !! name with
              | Some m => (name, m)
              | None => (h "Material" name (dom materials), Material false None)
              end in
    let rt := rebuild_material_tree bc m r
                (tree_or default_material_tree (mat_node_tree (snd km))) in
    (match fst rt with Ok _ => Ok (fst km) | Raise e => Raise e end,
     <[fst km := Material true (Some (snd rt))]> materials).
Proof.
  unfold make_basic_material.
  destruct (match materials !! name with Some m0 => _ | None => _ end) as [k x].
  simpl. by destruct (rebuild_material_tree _ _ _ _).
Qed.

(** C7, as amended: for a base colour of four components and numeric
    metallic and roughness (values the host accepts at lines 80 to 82),
    make_basic_material returns a material whose node tree has exactly
    two nodes, a Material Output and a Principled BSDF whose Base
    Color, Metallic and Roughness inputs hold the arguments, joined by
    the single link BSDF -> Surface.  A material found under the name
    is the one rebuilt (its old nodes are gone); otherwise the material
    is a new one under the name the host gives it; no other material
    changes. *)
Theorem make_basic_material_two_nodes (h : naming) (name : string)
    (base_color metallic roughness : value)
    (materials : gmap string material) :
  fresh h ->
  check_value ColorSocket base_color = Ok tt ->
  check_value FloatSocket metallic = Ok tt ->
  check_value FloatSocket roughness = Ok tt ->
  (forall m t, materials !! name = Some m -> mat_node_tree m = Some t ->
               links_closed t) ->
  exists key out bsdf next,
    out <> bsdf /\
    (is_Some (materials !! name) -> key = name) /\
    (materials !! name = None ->
       key = h "Material" name (dom materials) /\ materials !! key = None) /\
    make_basic_material h name base_color metallic roughness materials =
      (Ok key,
       <[key := Material true (Some (Tree
           [Node out "ShaderNodeOutputMaterial" ∅ ∅;
            Node bsdf "ShaderNodeBsdfPrincipled"
              (<["Roughness" := roughness]>
                 (<["Metallic" := metallic]>
                    (<["Base Color" := base_color]> ∅))) ∅]
           [Link bsdf "BSDF" out "Surface"]
           next))]> materials).
Proof.
  intros Hf Hbc Hm Hr Hwf. rewrite make_basic_material_eq.
  pose proof (material_tree_of_closed h name materials Hwf) as Hc.
  cbv zeta. rewrite (rebuild_material_tree_closed _ _ _ _ Hc Hbc Hm Hr).
  eexists _, _, _, _. split; [|split; [|split; [|reflexivity]]].
  - simpl. lia.
  - intros [x Hx]. by rewrite Hx.
  - intros Hx. rewrite Hx. simpl. split; [done|].
    apply not_elem_of_dom. apply Hf.
Qed.

(** A colour of three components: line 80 raises ValueError, and the
    material is left with the two new nodes, nothing assigned and
    nothing linked. *)
Lemma make_basic_material_three_components :
  make_basic_material blender_names "Wall_Paint"
      (VTuple [FLit 0.9; FLit 0.9; FLit 0.9]) (VNum (FLit 0)) (VNum (FLit 0.6)) ∅ =
    (Raise (ValueError "sequences of dimension 1 should contain 4 items"),
     {[ "Wall_Paint" := Material true (Some (unfinished_material_tree 2)) ]}).
Proof. reflexivity. Qed.

End MaterialFacts.

(** ** The world block *)
Section WorldFacts.
Import NodeTree Bpy WorldSetup.

Lemma rebuild_world_tree_closed (nt : node_tree) :
  links_closed nt ->
  rebuild_world_tree nt =
    Tree [Node (next_id nt) "ShaderNodeOutputWorld" ∅ ∅;
          Node (S (next_id nt)) "ShaderNodeBackground"
            (<["Strength" := VNum (FLit (12 # 10))]> ∅) ∅;
          Node (S (S (next_id nt))) "ShaderNodeTexSky" ∅
            (<["sun_elevation" := VNum (FRadians (FLit 45))]> ∅)]
         [Link (S (S (next_id nt))) "Color" (S (next_id nt)) "Color";
          Link (S (next_id nt)) "Background" (next_id nt) "Surface"]
         (S (S (S (next_id nt)))).
Proof.
  intros Hc. unfold rebuild_world_tree.
  rewrite (remove_all_nodes_closed _ Hc).
  unfold nodes_new, set_input, set_prop, update_node, links_new; simpl.
  repeat (case_decide; simpl in *; try lia); try done.
  rewrite filter_cons_True; [done|]. simpl. intros [Heq _]. lia.
Qed.

Lemma default_world_tree_closed : links_closed default_world_tree.
Proof. repeat constructor. Qed.

(** C6: after the world block the world's node tree has exactly three
    nodes (World Output, Background with Strength 1.2, Sky Texture with
    sun elevation radians(45)) and exactly two links, Sky Color ->
    Background Color and Background -> World Output Surface; whatever
    nodes the world had before are gone. *)
Theorem configure_world_three_nodes (worlds : gmap string world) :
  (forall w t, worlds !! "World" = Some w -> world_node_tree w = Some t ->
               links_closed t) ->
  exists out bg sky next,
    NoDup [out; bg; sky] /\
    configure_world worlds =
      ("World",
       <["World" := World true (Some (Tree
           [Node out "ShaderNodeOutputWorld" ∅ ∅;
            Node bg "ShaderNodeBackground"
              (<["Strength" := VNum (FLit (12 # 10))]> ∅) ∅;
            Node sky "ShaderNodeTexSky" ∅
              (<["sun_elevation" := VNum (FRadians (FLit 45))]> ∅)]
           [Link sky "Color" bg "Color";
            Link bg "Background" out "Surface"]
           next))]> worlds).
Proof.
  intros Hwf. unfold configure_world.
  set (w := match worlds !! "World" with Some w => w | None => World false None end).
  assert (Hc : links_closed (tree_or default_world_tree (world_node_tree w))).
  { subst w. destruct (worlds !! "World") as [w|] eqn:Hw; simpl.
    - destruct (world_node_tree w) as [t|] eqn:Ht; simpl.
      + by eapply Hwf.
      + apply default_world_tree_closed.
    - apply default_world_tree_closed. }
  rewrite (rebuild_world_tree_closed _ Hc).
  eexists _, _, _, _. split; [|reflexivity].
  repeat constructor; rewrite ?elem_of_cons, ?elem_of_nil; lia.
Qed.

End WorldFacts.

(** ** ensure_collection *)
Section CollectionFacts.
Import Host Collections.

Lemma ensure_collection_present (h : naming) (name : string)
    (parent : option cref) (st : store) :
  is_Some (collections st !! name) ->
  ensure_collection h name parent st = (Named name, st).
Proof.
  intros [c Hc]. unfold ensure_collection. by rewrite Hc.
Qed.

(** The collection that is returned exists afterwards. *)
Lemma ensure_collection_creates (h : naming) (name : string)
    (parent : option cref) (st : store) :
  exists k, fst (ensure_collection h name parent st) = Named k /\
            is_Some (collections (snd (ensure_collection h name parent st)) !! k).
Proof.
  unfold ensure_collection.
  destruct (collections st !! name) as [c|] eqn:Hc; simpl.
  { exists name. by rewrite Hc. }
  exists (h "Collection" name (dom (collections st))).
  destruct parent as [[|pn]|]; simpl;
    rewrite ?lookup_alter_is_Some, lookup_insert_eq; eauto.
Qed.

(** The host stores a valid name that is free as it is given. *)
Lemma new_collection_key (h : naming) (name : string) (st : store) :
  exact h -> valid_name name = true -> collections st !! name = None ->
  h "Collection" name (dom (collections st)) = name.
Proof.
  intros Hx Hv Hn. apply Hx; [done|]. by apply not_elem_of_dom.
Qed.

Lemma ensure_collection_named (h : naming) (name : string)
    (parent : option cref) (st : store) :
  exact h -> valid_name name = true ->
  is_Some (collections (snd (ensure_collection h name parent st)) !! name).
Proof.
  intros Hx Hv. unfold ensure_collection.
  destruct (collections st !! name) as [c|] eqn:Hc; simpl; [by rewrite Hc|].
  rewrite new_collection_key by done.
  destruct parent as [[|pn]|]; simpl;
    rewrite ?lookup_alter_is_Some, lookup_insert_eq; eauto.
Qed.

Lemma ensure_collection_size (h : naming) (name : string)
    (parent : option cref) (st : store) :
  size (collections (snd (ensure_collection h name parent st))) <=
  S (size (collections st)).
Proof.
  unfold ensure_collection.
  destruct (collections st !! name) as [c|] eqn:Hc; simpl; [lia|].
  set (key := h "Collection" name (dom (collections st))).
  assert (Hi : size (<[key := Collection [] []]> (collections st)) <=
               S (size (collections st))).
  { rewrite map_size_insert. destruct (collections st !! key); simpl; lia. }
  destruct parent as [[|pn]|]; simpl; try done.
  by rewrite <- size_dom, dom_alter_L, size_dom.
Qed.

Lemma ensure_many_present (h : naming) (name : string)
    (ps : list (option cref)) (st : store) :
  is_Some (collections st !! name) -> ensure_many h name ps st = st.
Proof.
  intros Hs. induction ps as [|p ps IH]; simpl; [done|].
  unfold ensure_many in *; simpl.
  by rewrite ensure_collection_present.
Qed.

(** C8, as amended: for a name the host stores as given (not empty, at
    most 63 bytes) ensure_collection is idempotent.  (1) When the name
    exists the existing collection is returned and the store is
    unchanged.  (2) A second call with the same name, under any parent,
    returns the collection of the first call and changes nothing.
    (3) Any number of calls with one name adds at most one collection.
    (4) When the name is absent an empty collection of that name is
    created and appended as last child to the given parent, or to the
    scene root when no parent is given; every other collection is as
    it was. *)
Theorem ensure_collection_idempotent (h : naming) (name : string)
    (parent parent' : option cref) (st : store) :
  exact h ->
  valid_name name = true ->
  (is_Some (collections st !! name) ->
     ensure_collection h name parent st = (Named name, st)) /\
  ensure_collection h name parent' (snd (ensure_collection h name parent st)) =
    ensure_collection h name parent st /\
  (forall ps, size (collections (ensure_many h name ps st)) <=
              S (size (collections st))) /\
  (collections st !! name = None ->
     let st' := snd (ensure_collection h name parent st) in
     fst (ensure_collection h name parent st) = Named name /\
     collections st' !! name = Some (Collection (
       match parent with Some (Named pn) => if decide (pn = name) then [name] else [] | _ => [] end) []) /\
     match parent with
     | Some (Named pn) =>
         scene_collection st' = scene_collection st /\
         (forall c, collections st !! pn = Some c ->
            collections st' !! pn =
              Some (Collection (children c ++ [name]) (objects c))) /\
         (forall n, n <> name -> n <> pn ->
            collections st' !! n = collections st !! n)
     | _ =>
         scene_collection st' =
           Collection (children (scene_collection st) ++ [name])
                      (objects (scene_collection st)) /\
         (forall n, n <> name -> collections st' !! n = collections st !! n)
     end).
Proof.
  intros Hx Hv.
  split; [apply ensure_collection_present|].
  split.
  { pose proof (ensure_collection_named h name parent st Hx Hv) as Hs.
    rewrite (ensure_collection_present _ _ _ _ Hs).
    unfold ensure_collection.
    destruct (collections st !! name) eqn:Hn; [done|].
    rewrite new_collection_key by done. by destruct parent. }
  split.
  { intros ps. destruct ps as [|p ps]; simpl; [lia|].
    unfold ensure_many; simpl.
    fold (ensure_many h name ps (snd (ensure_collection h name p st))).
    rewrite ensure_many_present by by apply ensure_collection_named.
    apply ensure_collection_size. }
  intros Hn. unfold ensure_collection. rewrite Hn.
  rewrite new_collection_key by done.
  destruct parent as [[|pn]|]; simpl.
  - rewrite lookup_insert_eq. repeat split; try done.
    intros n Hne. by rewrite lookup_insert_ne.
  - split; [done|]. split.
    + destruct (decide (pn = name)) as [->|Hne].
      * by rewrite lookup_alter_eq, lookup_insert_eq.
      * by rewrite lookup_alter_ne, lookup_insert_eq.
    + split; [done|]. split.
      * intros c Hc.
        assert (pn <> name) by (intros ->; congruence).
        by rewrite lookup_alter_eq, lookup_insert_ne, Hc.
      * intros n Hne Hnp. by rewrite lookup_alter_ne, lookup_insert_ne.
  - rewrite lookup_insert_eq. repeat split; try done.
    intros n Hne. by rewrite lookup_insert_ne.
Qed.

(** The empty name: the host stores the first collection as
    [Collection], so the second call does not find it under the empty
    name and creates [Collection.001]. *)
Lemma ensure_collection_empty_name_twice :
  let st0 := Store ∅ (Collection [] []) in
  let st1 := snd (ensure_collection blender_names "" None st0) in
  ensure_collection blender_names "" None st0 =
    (Named "Collection",
     Store {[ "Collection" := Collection [] [] ]} (Collection ["Collection"] [])) /\
  ensure_collection blender_names "" None st1 =
    (Named "Collection.001",
     Store (<[ "Collection.001" := Collection [] [] ]>
              {[ "Collection" := Collection [] [] ]})
           (Collection ["Collection"; "Collection.001"] [])) /\
  size (collections (ensure_many blender_names "" [None; None] st0)) = 2.
Proof. repeat split. Qed.

End CollectionFacts.

(** ** assign_material *)
Section AssignMaterialFacts.
Import Objects.

(** C10: assign_material touches the first material slot only.  With an
    empty list the list becomes the one given material; otherwise slot 0
    holds the given material and the list keeps its length and every
    other slot; the object's name, location and constraints are kept.
    An object without data, or whose data has no materials list, comes
    back as it was. *)
Theorem assign_material_first_slot (obj : object) (mat : string) :
  (forall d ms, obj_data obj = Some d -> data_materials d = Some ms ->
     exists d',
       assign_material obj mat =
         Object (obj_name obj) (Some d') (location obj) (constraints obj) /\
       d' = set_data_materials (match ms with [] => [mat] | _ :: tl => mat :: tl end) d /\
       exists ms',
         data_materials d' = Some ms' /\
         ms' !! 0 = Some mat /\
         (ms = [] -> ms' = [mat]) /\
         (ms <> [] -> length ms' = length ms /\
                      forall i, 0 < i -> ms' !! i = ms !! i)) /\
  (obj_data obj = None -> assign_material obj mat = obj) /\
  (forall d, obj_data obj = Some d -> data_materials d = None ->
     assign_material obj mat = obj).
Proof.
  unfold assign_material. split; [|split].
  - intros d ms Hd Hms. rewrite Hd, Hms.
    exists (set_data_materials (match ms with [] => [mat] | _ :: tl => mat :: tl end) d).
    split; [by destruct ms|]. split; [done|].
    exists (match ms with [] => [mat] | _ :: tl => mat :: tl end).
    split; [destruct d; simpl in *; congruence|].
    destruct ms as [|m tl]; simpl.
    + repeat split; try done.
    + repeat split; try done. intros [|i] Hi; [lia|done].
  - intros Hd. by rewrite Hd.
  - intros d Hd Hms. by rewrite Hd, Hms.
Qed.

End AssignMaterialFacts.

(** ** add_bezier_path *)
Section PathFacts.
Import Host Collections Objects Paths Built.

(** The loop, started at index [i] with enough control points left,
    overwrites exactly the points [i .. i + length points). *)
Lemma set_points_spec (points : list point) :
  forall (i : nat) (sp : spline),
    i + length points <= length (bezier_points sp) ->
    set_points i points sp =
      Ok (Spline (spline_type sp)
            (take i (bezier_points sp) ++ (auto_point <$> points) ++
             drop (i + length points) (bezier_points sp))
            (use_cyclic_u sp)).
Proof.
  induction points as [|p rest IH]; intros i sp Hlen; simpl in *.
  - rewrite Nat.add_0_r, take_drop. by destruct sp.
  - destruct (lookup_lt_is_Some_2 (bezier_points sp) i) as [bp Hbp]; [lia|].
    rewrite Hbp, IH; simpl; [|rewrite length_insert; lia].
    f_equal. f_equal.
    rewrite (take_S_r _ _ (auto_point p)) by (apply list_lookup_insert_eq; lia).
    rewrite take_insert_ge by lia.
    rewrite drop_insert_lt by lia.
    rewrite <- app_assoc. simpl.
    by replace (i + S (length rest)) with (S (i + length rest)) by lia.
Qed.

Lemma add_bezier_path_nonempty (h : naming) (name : string)
    (points : list point) (col : option cref) (objs : list object)
    (cs : store) :
  points <> [] ->
  add_bezier_path h name points col objs cs =
    Ok (length objs,
        objs ++ [path_object (h "Object" name (object_names objs)) points],
        objects_link (match col with Some c => c | None => SceneRoot end)
                     (length objs) cs).
Proof.
  intros Hne. unfold add_bezier_path, bezier_points_add, splines_new.
  destruct points as [|p rest]; [done|].
  cbn [bezier_points spline_type use_cyclic_u].
  rewrite set_points_spec; cbn [bezier_points spline_type use_cyclic_u].
  - cbn [mbind result_bind]. unfold path_object. do 8 f_equal.
    rewrite drop_ge; [by rewrite app_nil_r|].
    rewrite length_app, length_replicate. simpl length. lia.
  - rewrite length_app, length_replicate. simpl length. lia.
Qed.

(** With no points the count passed to [bezier_points.add] is -1,
    nothing is added, and the curve keeps the one control point the
    host created. *)
Lemma add_bezier_path_empty (h : naming) (objs : list object) (cs : store) :
  add_bezier_path h "P" [] None objs cs =
    Ok (length objs,
        objs ++ [Object (h "Object" "P" (object_names objs))
                   (Some (CurveData
                      (Curve "3D" [Spline "BEZIER" [default_bezier_point] false]
                             100 [])))
                   None []],
        objects_link SceneRoot (length objs) cs).
Proof. reflexivity. Qed.

(** Lines 158 to 179: both curves are created, then the assignment of
    line 179 raises. *)
Lemma build_paths_raises (h : naming) (col_cam_walk col_cam_aero : cref)
    (objs : list object) (cs : store) :
  build_paths h col_cam_walk col_cam_aero objs cs =
    (Raise (AttributeError "use_cyclic_u"),
     objs ++ built_objects h objs,
     objects_link col_cam_aero (S (length objs))
       (objects_link col_cam_walk (length objs) cs)).
Proof.
  unfold build_paths.
  rewrite add_bezier_path_nonempty by done.
  rewrite add_bezier_path_nonempty by done.
  rewrite length_app. simpl length.
  replace (length objs + 1) with (S (length objs)) by lia.
  rewrite lookup_app_r by (rewrite length_app; simpl; lia).
  rewrite length_app. simpl length.
  replace (S (length objs) - (length objs + 1)) with 0 by lia.
  cbn [lookup list_lookup]. unfold set_curve_attr, path_object at 2.
  cbn [obj_data curve_setattr].
  unfold built_objects, aero_object, walk_object.
  by rewrite <- app_assoc.
Qed.

(** C5: for a non-empty list of points add_bezier_path makes a 3D curve
    object with one BEZIER spline whose control points are the input
    points in order, each with AUTO handles; build_scene calls it with
    the 7 walkthrough points and with the 5 aerial points, whose first
    and last coincide.  The assignment that should mark the aerial
    curve cyclic (line 179) is made on the curve data, which has no
    such attribute: it raises AttributeError, and the two curves are
    left as add_bezier_path made them, neither of them cyclic. *)
Theorem add_bezier_path_control_points (h : naming) (name : string)
    (points : list point) (col : option cref) (col_cam_walk col_cam_aero : cref)
    (objs : list object) (cs : store) :
  (points <> [] ->
     exists pts,
       add_bezier_path h name points col objs cs =
         Ok (length objs,
             objs ++ [Object (h "Object" name (object_names objs))
                        (Some (CurveData (Curve "3D" [Spline "BEZIER" pts false] 100 [])))
                        None []],
             objects_link (match col with Some c => c | None => SceneRoot end)
                          (length objs) cs) /\
       length pts = length points /\
       co <$> pts = points /\
       Forall (fun bp => handle_left_type bp = "AUTO" /\
                         handle_right_type bp = "AUTO") pts) /\
  length walk_pts = 7 /\
  length aero_pts = 5 /\
  head aero_pts = last aero_pts /\
  build_paths h col_cam_walk col_cam_aero objs cs =
    (Raise (AttributeError "use_cyclic_u"),
     objs ++
       [Object (h "Object" "Walkthrough_Path" (object_names objs))
          (Some (CurveData (Curve "3D" [Spline "BEZIER" (auto_point <$> walk_pts) false]
                                  100 [])))
          None [];
        Object (h "Object" "Aerial_Spin_Path"
                  (object_names (objs ++ [walk_object h objs])))
          (Some (CurveData (Curve "3D" [Spline "BEZIER" (auto_point <$> aero_pts) false]
                                  100 [])))
          None []],
     objects_link col_cam_aero (S (length objs))
       (objects_link col_cam_walk (length objs) cs)).
Proof.
  split.
  { intros Hne. exists (auto_point <$> points).
    split; [by apply add_bezier_path_nonempty|].
    split; [by rewrite length_fmap|].
    split.
    - rewrite <- list_fmap_compose. apply list_fmap_id.
    - apply Forall_fmap, Forall_forall. by intros p _. }
  split; [done|]. split; [done|]. split; [done|].
  apply build_paths_raises.
Qed.

End PathFacts.

(** ** Render settings *)
Section RenderFacts.
Import Render.

Lemma find_snoc {A} (f : A -> bool) (l : list A) (x : A) :
  List.find f (l ++ [x]) =
  match List.find f l with
  | Some y => Some y
  | None => if f x then Some x else None
  end.
Proof.
  induction l as [|a l IH]; simpl; [done|]. by destruct (f a).
Qed.

Lemma fold_setattr_lookup (assigns : list (string * value))
    (scene : gmap string value) (path : string) :
  fold_left (fun sc '(p, v) => setattr p v sc) assigns scene !! path =
  match List.find (fun '(p, _) => bool_decide (p = path)) (rev assigns) with
  | Some (_, v) => Some v
  | None => scene !! path
  end.
Proof.
  revert scene. induction assigns as [|[p v] rest IH]; intros scene; simpl; [done|].
  rewrite IH, find_snoc. unfold setattr.
  destruct (List.find _ (rev rest)) as [[p' v']|]; [done|]. simpl.
  case_bool_decide as Hp.
  - subst. by rewrite lookup_insert_eq.
  - by rewrite lookup_insert_ne.
Qed.

(** C9: whatever the scene held before, after the render block the
    engine is CYCLES on the CPU device with 256 samples and denoising
    on, motion blur is on with shutter 0.5, the resolution is 1920 x
    1080 at 100 percent, the rate 30 fps, the frame range 0 to 600, the
    display device sRGB with the Filmic view transform, and the output
    is //renders/walkthrough_preview.mp4, H264 in an MPEG4 container. *)
Theorem configure_render_values (scene : gmap string value) :
  let sc := configure_render scene in
  sc !! "render.engine" = Some (VStr "CYCLES") /\
  sc !! "cycles.device" = Some (VStr "CPU") /\
  sc !! "cycles.samples" = Some (VInt 256) /\
  sc !! "cycles.use_denoising" = Some (VBool true) /\
  sc !! "render.use_motion_blur" = Some (VBool true) /\
  sc !! "render.motion_blur_shutter" = Some (VNum (FLit 0.5)) /\
  sc !! "render.resolution_x" = Some (VInt 1920) /\
  sc !! "render.resolution_y" = Some (VInt 1080) /\
  sc !! "render.resolution_percentage" = Some (VInt 100) /\
  sc !! "render.fps" = Some (VInt 30) /\
  sc !! "frame_start" = Some (VInt 0) /\
  sc !! "frame_end" = Some (VInt 600) /\
  sc !! "display_settings.display_device" = Some (VStr "sRGB") /\
  sc !! "view_settings.view_transform" = Some (VStr "Filmic") /\
  sc !! "render.filepath" = Some (VStr "//renders/walkthrough_preview.mp4") /\
  sc !! "render.image_settings.file_format" = Some (VStr "FFMPEG") /\
  sc !! "render.ffmpeg.codec" = Some (VStr "H264") /\
  sc !! "render.ffmpeg.format" = Some (VStr "MPEG4").
Proof.
  unfold configure_render. repeat split; by rewrite fold_setattr_lookup.
Qed.

End RenderFacts.

(** ** Path strings *)
Section PathStringFacts.
Import Path.

Lemma ends_with_sep_app (a b : string) :
  b <> "" -> ends_with_sep (a +:+ b) = ends_with_sep b.
Proof.
  intros Hb. induction a as [|c a IH]; [done|].
  change (String c a +:+ b) with (String c (a +:+ b)).
  cbn [ends_with_sep]. rewrite IH.
  destruct (a +:+ b) eqn:Hab; [|done].
  destruct a; simpl in Hab; [by subst|discriminate].
Qed.

Lemma basename_from_app (d n cur : string) :
  ends_with_sep d = true ->
  basename_from cur (d +:+ n) = basename_from "" n.
Proof.
  revert cur. induction d as [|c d IH]; intros cur Hd; [discriminate|].
  change (String c d +:+ n) with (String c (d +:+ n)). simpl.
  destruct d as [|c' d'].
  - simpl in Hd. by rewrite Hd.
  - assert (Hd' : ends_with_sep (String c' d') = true) by exact Hd.
    destruct (is_sep c); by apply IH.
Qed.

Lemma components_from_app (d n cur : string) :
  ends_with_sep d = true ->
  components_from cur (d +:+ n) = components_from cur d ++ components_from "" n.
Proof.
  revert cur. induction d as [|c d IH]; intros cur Hd; [discriminate|].
  change (String c d +:+ n) with (String c (d +:+ n)). simpl.
  destruct d as [|c' d'].
  - simpl in Hd. rewrite Hd. simpl. by rewrite app_nil_r.
  - assert (Hd' : ends_with_sep (String c' d') = true) by exact Hd.
    destruct (is_sep c).
    + rewrite IH by done. by rewrite app_assoc.
    + by apply IH.
Qed.

Lemma components_app (d n : string) :
  ends_with_sep d = true -> starts_with_sep n = false ->
  components (d +:+ n) = components d ++ components n.
Proof.
  intros Hd Hn. unfold components. rewrite Hn. simpl.
  rewrite components_from_app by done. rewrite app_assoc. f_equal.
  by destruct d.
Qed.

Lemma join_dir (d n : string) :
  ends_with_sep d = true -> starts_with_sep n = false -> join d n = d +:+ n.
Proof.
  intros Hd Hn. unfold join. rewrite Hn, Hd. by rewrite orb_true_r.
Qed.

Lemma append_snoc_nonempty (cur : string) (c : ascii) :
  String.eqb (cur +:+ String c "") "" = false.
Proof. by destruct cur. Qed.

Lemma starts_with_sep_snoc (cur : string) (c : ascii) :
  starts_with_sep cur = false -> is_sep c = false ->
  starts_with_sep (cur +:+ String c "") = false.
Proof. by destruct cur. Qed.

(** No component is the separator: the root marker is the only
    ["/"] in a component list. *)
Lemma components_from_names (s cur x : string) :
  starts_with_sep cur = false ->
  x ∈ components_from cur s -> starts_with_sep x = false.
Proof.
  revert cur. induction s as [|c s IH]; intros cur Hcur; simpl.
  - destruct (String.eqb cur ""); [by intros ?%elem_of_nil|].
    by intros ->%list_elem_of_singleton.
  - destruct (is_sep c) eqn:Hc.
    + intros [Hx|Hx]%elem_of_app; [|by apply (IH "")].
      destruct (String.eqb cur ""); [by apply elem_of_nil in Hx|].
      by apply list_elem_of_singleton in Hx as ->.
    + apply IH. by apply starts_with_sep_snoc.
Qed.

Lemma components_from_exports (b cur : string) :
  components_from cur (b +:+ "exports/") <> [].
Proof.
  revert cur. induction b as [|c b IH]; intros cur.
  - simpl. rewrite append_snoc_nonempty. done.
  - change (String c b +:+ "exports/") with (String c (b +:+ "exports/")).
    simpl. destruct (is_sep c); [|apply IH].
    intros [_ Hnil]%app_eq_nil. by eapply IH.
Qed.

Lemma export_dir_nonempty (b : string) :
  String.eqb (b +:+ "exports/") "" = false.
Proof. by destruct b. Qed.

End PathStringFacts.

(** ** The file system *)
Section FSFacts.
Import Path FS.

Lemma always_there_snoc (d : list string) (n : string) :
  n <> "/" -> always_there (d ++ [n]) = false.
Proof.
  intros Hn. unfold always_there.
  rewrite bool_decide_eq_false_2 by (by destruct d).
  rewrite bool_decide_eq_false_2; [done|].
  destruct d as [|a [|a' d']]; simpl; congruence.
Qed.

Lemma always_there_export_dir (b : string) :
  always_there (components (b +:+ "exports/")) = false.
Proof.
  pose proof (components_from_exports b "") as Hne.
  unfold always_there, components.
  destruct (components_from "" (b +:+ "exports/")) as [|x l] eqn:Hc; [done|].
  assert (Hx : starts_with_sep x = false).
  { apply (components_from_names (b +:+ "exports/") "" x); [done|].
    rewrite Hc. left. }
  destruct (starts_with_sep (b +:+ "exports/")); cbn [app].
  - rewrite bool_decide_eq_false_2 by done. by rewrite bool_decide_eq_false_2.
  - rewrite bool_decide_eq_false_2 by done.
    rewrite bool_decide_eq_false_2; [done|]. intros [= -> _]. done.
Qed.

Lemma lookup_node_other (fs : gmap (list string) fnode) (p : list string) :
  always_there p = false -> lookup_node fs p = fs !! p.
Proof. intros Hp. unfold lookup_node. by rewrite Hp. Qed.

Lemma lookup_node_agree (fs fs' : gmap (list string) fnode) (p : list string) :
  fs' !! p = fs !! p -> lookup_node fs' p = lookup_node fs p.
Proof. intros Hp. unfold lookup_node. by rewrite Hp. Qed.



Lemma lookup_node_insert_dir (fs : gmap (list string) fnode) (p : list string) :
  isdir p (<[p := Dir]> fs) = true.
Proof.
  unfold isdir, lookup_node. destruct (always_there p); [done|].
  by rewrite lookup_insert_eq.
Qed.



(** Where os.makedirs returns normally there is a directory. *)
Lemma makedirs_ok_isdir (rp : list string) (fs0 fs1 : gmap (list string) fnode) :
  makedirs rp fs0 = Ok fs1 -> isdir (rev rp) fs1 = true.
Proof.
  destruct rp as [|x parent]; [done|]. cbn [makedirs].
  destruct (match parent with
            | [] => Ok fs0
            | _ :: _ =>
                if exists_ (rev parent) fs0 then Ok fs0
                else match makedirs parent fs0 with
                     | Ok fs' => Ok fs'
                     | Raise (FileExistsError _) => Ok fs0
                     | Raise e => Raise e
                     end
            end) as [fs2|e]; cbn [mbind result_bind]; [|done].
  unfold mkdir.
  destruct (isdir (rev (x :: parent)) fs2) eqn:Hd;
    destruct (lookup_node fs2 (rev (x :: parent))) as [nd|];
    try destruct (lookup_node fs2 (rev (tail (x :: parent)))) as [[|c]|];
    intros [= <-]; first [exact Hd | apply lookup_node_insert_dir].
Qed.

End FSFacts.

(** ** ensure_dir *)
Section EnsureDirFacts.
Import Path FS Exporter.

Lemma ensure_dir_in_present (f : faults) (p : string) (st : io) :
  isdir_path p (fs st) = true -> ensure_dir_in f p st = (Ok tt, st).
Proof. intros Hd. unfold ensure_dir_in. by rewrite Hd. Qed.

Lemma ensure_dir_present (p : string) (st : io) :
  isdir_path p (fs st) = true -> ensure_dir p st = (Ok tt, st).
Proof. apply ensure_dir_in_present. Qed.


(** A normal return of ensure_dir leaves a directory at the path. *)
Lemma ensure_dir_in_ok (f : faults) (p : string) (st st1 : io) :
  ensure_dir_in f p st = (Ok tt, st1) -> isdir_path p (fs st1) = true.
Proof.
  unfold ensure_dir_in.
  destruct (isdir_path p (fs st)) eqn:Hd; cbn [negb]; [by intros [= <-]|].
  unfold attempt, on_fs, makedirs_path. cbn [fs trace].
  destruct (f (MakeDirs p)); [done|].
  destruct (String.eqb p "") eqn:Hp; [done|].
  destruct (makedirs (rev (components p)) (fs st)) as [fs'|e] eqn:Hmk; [|done].
  intros [= <-]. cbn [fs]. unfold isdir_path. rewrite Hp. cbn [negb andb].
  apply makedirs_ok_isdir in Hmk. by rewrite rev_involutive in Hmk.
Qed.

Example ensure_dir_nested :
  ensure_dir "/home/u/exports/" (IO {[ ["/"; "home"] := Dir ]} []) =
    (Ok tt, IO (<[["/"; "home"; "u"; "exports"] := Dir]>
                  (<[["/"; "home"; "u"] := Dir]> {[ ["/"; "home"] := Dir ]}))
               [MakeDirs "/home/u/exports/"]).
Proof. reflexivity. Qed.

Example ensure_dir_relative :
  ensure_dir "exports/" (IO ∅ []) =
    (Ok tt, IO {[ ["exports"] := Dir ]} [MakeDirs "exports/"]).
Proof. reflexivity. Qed.

(** The empty string is no directory, and os.makedirs refuses it. *)
Example ensure_dir_empty_path :
  ensure_dir "" (IO ∅ []) = (Raise (FileNotFoundError []), IO ∅ [MakeDirs ""]).
Proof. reflexivity. Qed.

Example basename_full :
  basename (join "/home/u/exports/" "Duplex_House.fbx") = "Duplex_House.fbx".
Proof. reflexivity. Qed.

End EnsureDirFacts.

(** ** Failures are not handled *)
Section PropagationFacts.
Import Path FS Exporter Propagation.





Lemma unhandled_quiet (f : faults) {A} (m : M A) : quiet m -> unhandled f m.
Proof.
  intros Hq st. exists []. rewrite app_nil_r. split; [apply Hq|].
  by intros e x ?%elem_of_nil.
Qed.













End PropagationFacts.

(** ** export_fbx_and_zip *)
Section ExportFacts.
Import Path FS Exporter Propagation.

Lemma lookup_node_snoc (fs : gmap (list string) fnode) (d : list string)
    (n : string) :
  n <> "/" -> lookup_node fs (d ++ [n]) = fs !! (d ++ [n]).
Proof. intros Hn. by apply lookup_node_other, always_there_snoc. Qed.

Lemma snoc_ne_self (d : list string) (n : string) : d ++ [n] <> d.
Proof.
  intros Heq. apply (f_equal length) in Heq. rewrite length_app in Heq.
  simpl in Heq. lia.
Qed.

Lemma isdir_insert_snoc (fs : gmap (list string) fnode) (d : list string)
    (n : string) (x : fnode) :
  isdir d (<[d ++ [n] := x]> fs) = isdir d fs.
Proof.
  unfold isdir. rewrite (lookup_node_agree fs); [done|].
  rewrite lookup_insert_ne; [done|]. apply snoc_ne_self.
Qed.

Lemma write_file_in_dir (fs : gmap (list string) fnode) (d : list string)
    (n : string) (c : content) :
  n <> "/" ->
  isdir d fs = true ->
  fs !! (d ++ [n]) <> Some Dir ->
  write_file (d ++ [n]) c fs = Ok (<[d ++ [n] := File c]> fs).
Proof.
  intros Hs Hd Hn. unfold write_file.
  rewrite lookup_node_snoc, removelast_last by done.
  unfold isdir in Hd.
  destruct (lookup_node fs d) as [[|c']|]; try done.
  by destruct (fs !! (d ++ [n])) as [[|c']|].
Qed.

Lemma read_file_snoc (fs : gmap (list string) fnode) (d : list string)
    (n : string) (c : content) :
  n <> "/" ->
  fs !! (d ++ [n]) = Some (File c) -> read_file (d ++ [n]) fs = Ok c.
Proof. intros Hs Hl. unfold read_file. by rewrite lookup_node_snoc, Hl. Qed.

Lemma export_dir_sep (b : string) : ends_with_sep (b +:+ "exports/") = true.
Proof. by rewrite ends_with_sep_app. Qed.

Lemma export_path (b n : string) :
  starts_with_sep n = false ->
  join (b +:+ "exports/") n = (b +:+ "exports/") +:+ n /\
  basename (join (b +:+ "exports/") n) = basename n /\
  components (join (b +:+ "exports/") n) =
    components (b +:+ "exports/") ++ components n.
Proof.
  intros Hn. rewrite join_dir by (done || apply export_dir_sep).
  split; [done|]. split.
  - apply basename_from_app, export_dir_sep.
  - apply components_app; [apply export_dir_sep|done].
Qed.

Lemma isdir_path_export_dir (b : string) (fs : gmap (list string) fnode) :
  isdir_path (b +:+ "exports/") fs = isdir (components (b +:+ "exports/")) fs.
Proof. unfold isdir_path. by rewrite export_dir_nonempty. Qed.

(** The files and the trace a successful run leaves. *)
Lemma export_run (b : string) (scene : list Objects.object) (st st1 : io) :
  let E := b +:+ "exports/" in
  let d := components E in
  ensure_dir E st = (Ok tt, st1) ->
  isdir d (fs st1) = true ->
  fs st1 !! (d ++ ["Duplex_House.fbx"]) <> Some Dir ->
  fs st1 !! (d ++ ["README_Import.txt"]) <> Some Dir ->
  fs st1 !! (d ++ ["Duplex_House_FBX.zip"]) <> Some Dir ->
  export_fbx_and_zip b true scene st =
    (Ok tt,
     IO (<[d ++ ["Duplex_House_FBX.zip"] :=
             File (Zip [("Duplex_House.fbx", Fbx scene);
                        ("README_Import.txt", Text readme_text)])]>
           (<[d ++ ["README_Import.txt"] := File (Text readme_text)]>
              (<[d ++ ["Duplex_House.fbx"] := File (Fbx scene)]> (fs st1))))
        (trace st1 ++
           [SelectAll;
            ExportFbx (E +:+ "Duplex_House.fbx");
            OpenWrite (E +:+ "README_Import.txt");
            ZipOpen (E +:+ "Duplex_House_FBX.zip");
            ZipWrite (E +:+ "Duplex_House.fbx") "Duplex_House.fbx";
            ZipWrite (E +:+ "README_Import.txt") "README_Import.txt";
            Print ("✔ Export complete: " +:+ (E +:+ "Duplex_House_FBX.zip"))])).
Proof.
  intros E d Hens Hd Hf Hr Hz.
  destruct (export_path b "Duplex_House.fbx" eq_refl) as (Jf & Bf & Cf).
  destruct (export_path b "README_Import.txt" eq_refl) as (Jr & Br & Cr).
  destruct (export_path b "Duplex_House_FBX.zip" eq_refl) as (Jz & Bz & Cz).
  fold E in Jf, Bf, Cf, Jr, Br, Cr, Jz, Bz, Cz.
  fold d in Cf, Cr, Cz.
  change (components "Duplex_House.fbx") with ["Duplex_House.fbx"] in Cf.
  change (components "README_Import.txt") with ["README_Import.txt"] in Cr.
  change (components "Duplex_House_FBX.zip") with ["Duplex_House_FBX.zip"] in Cz.
  change (basename "Duplex_House.fbx") with "Duplex_House.fbx" in Bf.
  change (basename "README_Import.txt") with "README_Import.txt" in Br.
  unfold export_fbx_and_zip, export_in. cbv zeta. fold E.
  rewrite Bf, Br.
  unfold zip_write, export_scene_fbx, get_file, attempt, no_faults.
  rewrite Cf, Cr, Cz, Jf, Jr, Jz.
  unfold mbind, M_bind. unfold ensure_dir, no_faults in Hens. rewrite Hens.
  unfold mret, M_ret, on_fs. cbn [fs trace].
  assert (Hfr : d ++ ["Duplex_House.fbx"] <> d ++ ["README_Import.txt"])
    by (intros Heq; apply app_inv_head in Heq; discriminate).
  assert (Hfz : d ++ ["Duplex_House.fbx"] <> d ++ ["Duplex_House_FBX.zip"])
    by (intros Heq; apply app_inv_head in Heq; discriminate).
  assert (Hrz : d ++ ["README_Import.txt"] <> d ++ ["Duplex_House_FBX.zip"])
    by (intros Heq; apply app_inv_head in Heq; discriminate).
  rewrite write_file_in_dir by done. cbn [fs trace].
  rewrite write_file_in_dir;
    [|done|by rewrite isdir_insert_snoc|by rewrite lookup_insert_ne by done].
  cbn [fs trace].
  rewrite write_file_in_dir;
    [|done|by rewrite !isdir_insert_snoc|by rewrite !lookup_insert_ne by done].
  cbn [fs trace].
  rewrite (read_file_snoc _ d "Duplex_House.fbx" (Fbx scene));
    [|done|by rewrite !lookup_insert_ne by done; rewrite lookup_insert_eq].
  rewrite (read_file_snoc _ d "Duplex_House_FBX.zip" (Zip []));
    [|done|by rewrite lookup_insert_eq].
  rewrite write_file_in_dir;
    [|done|by rewrite !isdir_insert_snoc|by rewrite lookup_insert_eq].
  cbn [fs trace]. rewrite insert_insert_eq.
  rewrite (read_file_snoc _ d "README_Import.txt" (Text readme_text));
    [|done|by rewrite lookup_insert_ne by done; rewrite lookup_insert_eq].
  rewrite (read_file_snoc _ d "Duplex_House_FBX.zip"
             (Zip ([] ++ [("Duplex_House.fbx", Fbx scene)])));
    [|done|by rewrite lookup_insert_eq].
  rewrite write_file_in_dir;
    [|done|by rewrite !isdir_insert_snoc|by rewrite lookup_insert_eq].
  cbn [fs trace]. rewrite insert_insert_eq.
  rewrite <- !app_assoc. done.
Qed.

(** C3: a run of export_fbx_and_zip that finds its directory and whose
    targets are not directories exports once, to Duplex_House.fbx;
    the archive holds exactly the entries Duplex_House.fbx and
    README_Import.txt; nothing is written at Duplex_House_Lite.fbx,
    although the README that is written names that file. *)
Theorem export_never_writes_lite (b : string) (scene : list Objects.object)
    (st st1 : io) :
  let E := b +:+ "exports/" in
  let d := components E in
  ensure_dir E st = (Ok tt, st1) ->
  isdir d (fs st1) = true ->
  fs st1 !! (d ++ ["Duplex_House.fbx"]) <> Some Dir ->
  fs st1 !! (d ++ ["README_Import.txt"]) <> Some Dir ->
  fs st1 !! (d ++ ["Duplex_House_FBX.zip"]) <> Some Dir ->
  exists st' new,
    export_fbx_and_zip b true scene st = (Ok tt, st') /\
    trace st' = trace st1 ++ new /\
    filter (fun e => is_fbx_export e = true) new =
      [ExportFbx (join E "Duplex_House.fbx")] /\
    fs st' !! components (join E "Duplex_House_FBX.zip") =
      Some (File (Zip [("Duplex_House.fbx", Fbx scene);
                       ("README_Import.txt", Text readme_text)])) /\
    fs st' !! components (join E "README_Import.txt") =
      Some (File (Text readme_text)) /\
    index 0 "Duplex_House_Lite.fbx" readme_text <> None /\
    fs st' !! components (join E "Duplex_House_Lite.fbx") =
      fs st1 !! components (join E "Duplex_House_Lite.fbx").
Proof.
  intros E d Hens Hd Hf Hr Hz.
  destruct (export_path b "Duplex_House.fbx" eq_refl) as (Jf & _ & _).
  destruct (export_path b "README_Import.txt" eq_refl) as (_ & _ & Cr).
  destruct (export_path b "Duplex_House_FBX.zip" eq_refl) as (_ & _ & Cz).
  destruct (export_path b "Duplex_House_Lite.fbx" eq_refl) as (_ & _ & Cl).
  fold E in Jf, Cr, Cz, Cl. fold d in Cr, Cz, Cl.
  change (components "README_Import.txt") with ["README_Import.txt"] in Cr.
  change (components "Duplex_House_FBX.zip") with ["Duplex_House_FBX.zip"] in Cz.
  change (components "Duplex_House_Lite.fbx") with ["Duplex_House_Lite.fbx"] in Cl.
  eexists _, _. split; [by apply export_run|]. cbn [fs trace].
  split; [reflexivity|]. rewrite Jf, Cr, Cz, Cl.
  split; [done|].
  split; [by rewrite lookup_insert_eq|].
  split.
  { rewrite lookup_insert_ne, lookup_insert_eq; [done|].
    intros Heq; apply app_inv_head in Heq; discriminate. }
  split; [by vm_compute|].
  rewrite !lookup_insert_ne; [done|..];
    intros Heq; apply app_inv_head in Heq; discriminate.
Qed.




End ExportFacts.

(** ** Loading the file *)
Section LoadFacts.
Import Host Layout Exporter Script.

(** With line 124 moved to column 4 the layout of the whole file is
    accepted: the verdict on the file rests on that one line. *)
Lemma compile_repaired :
  compile ((fun l => if Nat.eqb (lineno l) 124 then stm 124 4 else l)
             <$> source_lines) = None.
Proof. reflexivity. Qed.

Lemma compile_source : compile source_lines = Some (UnexpectedIndent 125).
Proof. reflexivity. Qed.

Lemma run_script_raises (h : naming) (blend_dir : string) (fbx_ok : bool)
    (st : session) :
  run_script h blend_dir fbx_ok st = (Raise (SyntaxError 125), st).
Proof. unfold run_script. by rewrite compile_source. Qed.

(** C1: the file is not valid Python.  The header of build_scene is
    line 101 at column 0 and its body runs at column 4 up to line 123;
    line 124 is at column 0 and line 125 at column 4 again, without a
    header before it.  Up to line 124 the layout is accepted; with line
    125 the compiler reports an unexpected indent, so running the script
    raises a SyntaxError and leaves the session as it was: no call of
    build_scene or export_fbx_and_zip is made. *)
Theorem source_is_not_valid_python (h : naming) (blend_dir : string)
    (fbx_ok : bool) (st : session) :
  (exists before after,
     source_lines = before ++ [stm 123 4; stm 124 0; stm 125 4] ++ after /\
     hdr 101 0 ∈ before /\
     compile (before ++ [stm 123 4; stm 124 0]) = None) /\
  compile source_lines = Some (UnexpectedIndent 125) /\
  run_script h blend_dir fbx_ok st = (Raise (SyntaxError 125), st) /\
  (forall f, Call f ∈ trace (sys (snd (run_script h blend_dir fbx_ok st))) ->
             Call f ∈ trace (sys st)).
Proof.
  split.
  { exists (take 91 source_lines), (drop 94 source_lines).
    split; [reflexivity|]. split; [|reflexivity].
    apply (list_elem_of_lookup_2 _ 71). reflexivity. }
  split; [apply compile_source|].
  split; [apply run_script_raises|].
  intros f. by rewrite run_script_raises.
Qed.

(** C2 (what the code does): started as __main__ the script stops with
    the SyntaxError of line 125 before its first statement; nothing is
    exported and nothing is archived, the files are what they were. *)
Theorem run_script_exports_nothing (h : naming) (blend_dir : string)
    (fbx_ok : bool) (st : session) :
  fst (run_script h blend_dir fbx_ok st) = Raise (SyntaxError 125) /\
  fs (sys (snd (run_script h blend_dir fbx_ok st))) = fs (sys st) /\
  trace (sys (snd (run_script h blend_dir fbx_ok st))) = trace (sys st) /\
  bl (snd (run_script h blend_dir fbx_ok st)) = bl st.
Proof. by rewrite run_script_raises. Qed.

End LoadFacts.

(** ** The theorems with premises, at concrete inputs *)
Section Witnesses.
Import Host NodeTree Bpy Materials WorldSetup Collections Path FS Exporter.

(** Rebuilding a material that already has the host's default tree. *)
Lemma make_basic_material_two_nodes_witness :
  let materials : gmap string material :=
    {["Wall_Paint" := Material true (Some default_material_tree)]} in
  let base_color := VTuple [FLit 0.92; FLit 0.92; FLit 0.92; FLit 1] in
  exists key out bsdf next,
    out <> bsdf /\
    (is_Some (materials !! "Wall_Paint") -> key = "Wall_Paint") /\
    (materials !! "Wall_Paint" = None ->
       key = blender_names "Material" "Wall_Paint" (dom materials) /\
       materials !! key = None) /\
    make_basic_material blender_names "Wall_Paint" base_color
        (VNum (FLit 0.0)) (VNum (FLit 0.6)) materials =
      (Ok key,
       <[key := Material true (Some (Tree
           [Node out "ShaderNodeOutputMaterial" ∅ ∅;
            Node bsdf "ShaderNodeBsdfPrincipled"
              (<["Roughness" := VNum (FLit 0.6)]>
                 (<["Metallic" := VNum (FLit 0.0)]>
                    (<["Base Color" := base_color]> ∅))) ∅]
           [Link bsdf "BSDF" out "Surface"]
           next))]> materials).
Proof.
  intros materials base_color.
  apply (make_basic_material_two_nodes blender_names "Wall_Paint");
    [apply blender_names_fresh|reflexivity|reflexivity|reflexivity|].
  intros m t Hm Ht. subst materials. rewrite lookup_singleton_eq in Hm.
  injection Hm as <-. injection Ht as <-.
  unfold links_closed. simpl. repeat constructor.
Defined.

(** The world block on a world that has the host's default tree. *)
Lemma configure_world_three_nodes_witness :
  exists out bg sky next,
    NoDup [out; bg; sky] /\
    configure_world {["World" := World true (Some default_world_tree)]} =
      ("World",
       <["World" := World true (Some (Tree
           [Node out "ShaderNodeOutputWorld" ∅ ∅;
            Node bg "ShaderNodeBackground"
              (<["Strength" := VNum (FLit (12 # 10))]> ∅) ∅;
            Node sky "ShaderNodeTexSky" ∅
              (<["sun_elevation" := VNum (FRadians (FLit 45))]> ∅)]
           [Link sky "Color" bg "Color";
            Link bg "Background" out "Surface"]
           next))]>
         {["World" := World true (Some default_world_tree)]}).
Proof.
  apply (configure_world_three_nodes
           {["World" := World true (Some default_world_tree)]}).
  intros w t Hw Ht. rewrite lookup_singleton_eq in Hw.
  injection Hw as <-. injection Ht as <-.
  unfold links_closed. simpl. repeat constructor.
Defined.

(** A first collection under the scene root, asked for twice. *)
Lemma ensure_collection_idempotent_witness :
  let h := blender_names in
  let name := "Ground_Floor" in
  let parent := Some SceneRoot in
  let parent' : option cref := None in
  let st := Store ∅ (Collection [] []) in
  (is_Some (collections st !! name) ->
     ensure_collection h name parent st = (Named name, st)) /\
  ensure_collection h name parent' (snd (ensure_collection h name parent st)) =
    ensure_collection h name parent st /\
  (forall ps, size (collections (ensure_many h name ps st)) <=
              S (size (collections st))) /\
  (collections st !! name = None ->
     let st' := snd (ensure_collection h name parent st) in
     fst (ensure_collection h name parent st) = Named name /\
     collections st' !! name = Some (Collection [] []) /\
     scene_collection st' =
       Collection (children (scene_collection st) ++ [name])
                  (objects (scene_collection st)) /\
     (forall n, n <> name -> collections st' !! n = collections st !! n)).
Proof.
  intros h name parent parent' st.
  apply (ensure_collection_idempotent h name parent parent' st);
    [apply blender_names_exact|reflexivity].
Defined.

(** An export from an unsaved session into an empty directory. *)
Lemma export_never_writes_lite_witness :
  let st := IO ∅ [] in
  let st1 := IO {[ ["exports"] := Dir ]} [MakeDirs "exports/"] in
  ensure_dir "exports/" st = (Ok tt, st1) /\
  exists st' new,
    export_fbx_and_zip "" true [] st = (Ok tt, st') /\
    trace st' = trace st1 ++ new /\
    filter (fun e => is_fbx_export e = true) new =
      [ExportFbx (join "exports/" "Duplex_House.fbx")] /\
    fs st' !! components (join "exports/" "Duplex_House_FBX.zip") =
      Some (File (Zip [("Duplex_House.fbx", Fbx []);
                       ("README_Import.txt", Text readme_text)])) /\
    fs st' !! components (join "exports/" "README_Import.txt") =
      Some (File (Text readme_text)) /\
    index 0 "Duplex_House_Lite.fbx" readme_text <> None /\
    fs st' !! components (join "exports/" "Duplex_House_Lite.fbx") =
      fs st1 !! components (join "exports/" "Duplex_House_Lite.fbx").
Proof.
  intros st st1.
  assert (Hens : ensure_dir "exports/" st = (Ok tt, st1)) by reflexivity.
  split; [exact Hens|].
  apply (export_never_writes_lite "" [] st st1 Hens).
  - reflexivity.
  - by vm_compute.
  - by vm_compute.
  - by vm_compute.
Defined.

End Witnesses.

(** * Further properties of the script's functions *)

(** ** assign_material, composed *)
Section AssignMaterialMore.
Import Objects.

Lemma data_materials_set (ms : list string) (d : obdata) :
  is_Some (data_materials d) ->
  data_materials (set_data_materials ms d) = Some ms.
Proof. intros [ms0 H]. by destruct d. Qed.

Lemma set_data_materials_twice (ms ms' : list string) (d : obdata) :
  set_data_materials ms' (set_data_materials ms d) = set_data_materials ms' d.
Proof. by destruct d. Qed.

(** The last assignment wins: assigning [m1] and then [m2] leaves the
    object as assigning [m2] alone does.  In particular assigning the
    same material twice is the same as assigning it once. *)
Theorem assign_material_last_wins (obj : object) (m1 m2 : string) :
  assign_material (assign_material obj m1) m2 = assign_material obj m2.
Proof.
  unfold assign_material.
  destruct (obj_data obj) as [d|] eqn:Hd; simpl; [|by rewrite Hd].
  destruct (data_materials d) as [ms|] eqn:Hms; simpl; [|by rewrite Hd, Hms].
  rewrite data_materials_set by eauto. rewrite set_data_materials_twice.
  do 2 f_equal. f_equal.
  destruct ms as [|m tl]; reflexivity.
Qed.

(** The number of material slots never grows past what it was, except
    that an empty list gets its one slot: after assign_material an
    object that has a materials list has [max 1 n] slots. *)
Theorem assign_material_slot_count (obj : object) (mat : string)
    (d : obdata) (ms : list string) :
  obj_data obj = Some d ->
  data_materials d = Some ms ->
  exists d' ms',
    obj_data (assign_material obj mat) = Some d' /\
    data_materials d' = Some ms' /\
    length ms' = Nat.max 1 (length ms) /\
    head ms' = Some mat /\
    tail ms' = tail ms.
Proof.
  intros Hd Hms. unfold assign_material. rewrite Hd, Hms. simpl.
  eexists _, _. split; [reflexivity|].
  split; [apply data_materials_set; eauto|].
  destruct ms as [|m tl]; simpl; repeat split; lia.
Qed.

End AssignMaterialMore.

(** ** make_basic_material, repeated *)
Section MaterialMore.
Import Host NodeTree Bpy Materials Invariants Built.

(** make_basic_material keeps the host's invariant: when every link of
    every material tree starts at a node of its tree, the same holds
    after the call, for the rebuilt material and for all the others. *)
Theorem make_basic_material_keeps_closed (h : naming) (name : string)
    (bc m r : value) (materials : gmap string material) :
  trees_closed materials ->
  trees_closed (snd (make_basic_material h name bc m r materials)).
Proof.
  intros Hwf. rewrite make_basic_material_eq. cbv zeta. cbn [snd].
  assert (Hc := material_tree_of_closed h name materials
                  (fun old t => Hwf name old t)).
  set (km := match materials !! name with
             | Some m0 => (name, m0)
             | None => (h "Material" name (dom materials), Material false None)
             end) in *.
  intros n x t Hn Ht.
  destruct (decide (n = fst km)) as [->|Hne].
  - rewrite lookup_insert_eq in Hn. injection Hn as <-. injection Ht as <-.
    by apply rebuild_material_tree_links.
  - rewrite lookup_insert_ne in Hn by done. by eapply Hwf.
Qed.

(** The name under which the material is stored, for a name the host
    takes as given. *)
Lemma material_key_exact (h : naming) (name : string)
    (materials : gmap string material) :
  exact h -> valid_name name = true ->
  fst (match materials !! name with
       | Some m0 => (name, m0)
       | None => (h "Material" name (dom materials), Material false None)
       end) = name.
Proof.
  intros Hx Hv. destruct (materials !! name) eqn:Hn; [done|]. simpl.
  apply Hx; [done|]. by apply not_elem_of_dom.
Qed.

Lemma material_tree_result (h : naming) (name : string) (bc m r : value)
    (materials : gmap string material) :
  exact h -> valid_name name = true ->
  check_value ColorSocket bc = Ok tt ->
  check_value FloatSocket m = Ok tt ->
  check_value FloatSocket r = Ok tt ->
  (forall old t, materials !! name = Some old -> mat_node_tree old = Some t ->
                 links_closed t) ->
  exists k,
    make_basic_material h name bc m r materials =
      (Ok name, <[name := Material true (Some (material_tree k bc m r))]> materials).
Proof.
  intros Hx Hv Hbc Hm Hr Hwf. rewrite make_basic_material_eq. cbv zeta.
  rewrite (rebuild_material_tree_closed _ _ _ _
             (material_tree_of_closed h name materials Hwf) Hbc Hm Hr).
  rewrite material_key_exact by done. by eexists.
Qed.

Lemma material_tree_closed (k : nat) (bc m r : value) :
  links_closed (material_tree k bc m r).
Proof. unfold links_closed. simpl. repeat constructor. Qed.

(** Calling make_basic_material again for the same name, a name the
    host stores as given, with values the host accepts both times,
    replaces the material's tree: the store has one entry for the name,
    with two nodes carrying the values of the second call and none of
    the first. *)
Theorem make_basic_material_again (h : naming) (name : string)
    (bc1 m1 r1 bc2 m2 r2 : value) (materials : gmap string material) :
  exact h -> valid_name name = true ->
  check_value ColorSocket bc1 = Ok tt ->
  check_value FloatSocket m1 = Ok tt ->
  check_value FloatSocket r1 = Ok tt ->
  check_value ColorSocket bc2 = Ok tt ->
  check_value FloatSocket m2 = Ok tt ->
  check_value FloatSocket r2 = Ok tt ->
  (forall old t, materials !! name = Some old -> mat_node_tree old = Some t ->
                 links_closed t) ->
  exists k1 k2,
    make_basic_material h name bc1 m1 r1 materials =
      (Ok name, <[name := Material true (Some (material_tree k1 bc1 m1 r1))]> materials) /\
    make_basic_material h name bc2 m2 r2
        (snd (make_basic_material h name bc1 m1 r1 materials)) =
      (Ok name, <[name := Material true (Some (material_tree k2 bc2 m2 r2))]> materials).
Proof.
  intros Hx Hv Hbc1 Hm1 Hr1 Hbc2 Hm2 Hr2 Hwf.
  destruct (material_tree_result h name bc1 m1 r1 materials) as (k1 & H1); try done.
  destruct (material_tree_result h name bc2 m2 r2
              (<[name := Material true (Some (material_tree k1 bc1 m1 r1))]> materials))
    as (k2 & H2); try done.
  { intros old t. rewrite lookup_insert_eq. intros [= <-] [= <-].
    apply material_tree_closed. }
  exists k1, k2. split; [exact H1|].
  rewrite H1. cbn [snd]. rewrite H2. by rewrite insert_insert_eq.
Qed.

End MaterialMore.

(** ** new_cube and new_plane *)
Section PrimitiveFacts.
Import Collections Objects Invariants Primitives.

Lemma objects_link_alt (c : cref) (o : nat) (st : store) :
  objects_link c o st =
  match c with
  | SceneRoot => Store (collections st) (add_object o (scene_collection st))
  | Named n => Store (alter (add_object o) n (collections st)) (scene_collection st)
  end.
Proof. by destruct c. Qed.

Lemma collection_at_link_same (c : cref) (o : nat) (st : store) :
  collection_at c (objects_link c o st) = add_object o <$> collection_at c st.
Proof.
  rewrite objects_link_alt. destruct c as [|n]; simpl; [done|].
  by rewrite lookup_alter_eq.
Qed.

Lemma collection_at_link_other (c c' : cref) (o : nat) (st : store) :
  c <> c' -> collection_at c (objects_link c' o st) = collection_at c st.
Proof.
  intros Hne. rewrite objects_link_alt.
  destruct c as [|n], c' as [|n']; simpl; try done.
  rewrite lookup_alter_ne; [done|congruence].
Qed.

Lemma in_objects_fresh (c : cref) (o : nat) (st : store) :
  links_below o st -> in_objects c o st = false.
Proof.
  intros Hb. unfold in_objects.
  destruct (collection_at c st) as [col|] eqn:Hc; [|done].
  apply bool_decide_eq_false. intros Hin.
  pose proof (Hb c col o Hc Hin). lia.
Qed.

Lemma in_objects_link_same (c : cref) (o : nat) (st : store) :
  is_Some (collection_at c st) -> in_objects c o (objects_link c o st) = true.
Proof.
  intros [col Hc]. unfold in_objects. rewrite collection_at_link_same, Hc. simpl.
  apply bool_decide_eq_true. apply elem_of_app. right. by left.
Qed.

Lemma in_objects_link_other (c c' : cref) (o : nat) (st : store) :
  c <> c' -> in_objects c o (objects_link c' o st) = in_objects c o st.
Proof.
  intros Hne. unfold in_objects. by rewrite collection_at_link_other.
Qed.

Lemma in_objects_link_other' (c c' : cref) (o o' : nat) (st : store) :
  c <> c' -> in_objects c o (objects_link c' o' st) = in_objects c o st.
Proof.
  intros Hne. unfold in_objects.
  destruct c as [|n], c' as [|n']; simpl; try done.
  rewrite lookup_alter_ne; [done|congruence].
Qed.

Lemma filter_fresh_snoc (o : nat) (l : list nat) :
  o ∉ l -> filter (fun x => x <> o) (l ++ [o]) = l.
Proof.
  intros Hn. rewrite filter_app. simpl.
  rewrite (filter_all (fun x => x <> o) l); [|intros x Hx ->; done].
  rewrite filter_cons_False; [by rewrite app_nil_r|]. intros Hx. by apply Hx.
Qed.

Lemma delete_last {A} (l : list A) (x : A) : delete (length l) (l ++ [x]) = l.
Proof. induction l as [|a l IH]; simpl; [done|]. by rewrite IH. Qed.

(** The mesh object that both functions leave in [bpy.data.objects]:
    named by the host for [name], no material slots. *)
Lemma create_eq (h : Host.naming) (g : primitive) (name : string)
    (scale loc : point) (st : view) :
  create h g name scale loc st =
    (length (v_objs st),
     View (v_objs st ++ [Object (h "Object" name (object_names (v_objs st)))
                                (Some (MeshData [])) (Some loc) []])
          (objects_link (v_active_collection st) (length (v_objs st)) (v_colls st))
          (<[length (v_objs st) := scale]> (v_scale st))
          (v_active_collection st) (Some (length (v_objs st)))
          (<[length (v_objs st) := g]> (v_geometry st))).
Proof.
  unfold create, primitive_add, rename.
  cbn [v_objs v_colls v_scale v_active_collection v_active_object v_geometry].
  f_equal. f_equal.
  rewrite delete_last, alter_app_r_alt by lia. by rewrite Nat.sub_diag.
Qed.

Lemma move_to_target (c : cref) (st : view) :
  let o := length (v_objs st) in
  forall objs' scale' geo',
  links_below o (v_colls st) ->
  is_Some (collection_at c (v_colls st)) ->
  v_active_collection st = SceneRoot \/ v_active_collection st = c ->
  move_to (Some c) o
    (View objs' (objects_link (v_active_collection st) o (v_colls st)) scale'
          (v_active_collection st) (Some o) geo') =
  (Ok tt, View objs' (objects_link c o (v_colls st)) scale'
               (v_active_collection st) (Some o) geo').
Proof.
  intros o objs' scale' geo' Hb Hc Hact.
  unfold move_to.
  cbn [v_colls v_objs v_scale v_active_collection v_active_object v_geometry].
  destruct (decide (v_active_collection st = c)) as [Heq|Hne].
  - rewrite Heq. by rewrite in_objects_link_same.
  - destruct Hact as [Hroot|]; [|done]. rewrite Hroot in *.
    rewrite in_objects_link_other by done.
    rewrite in_objects_fresh by done. cbn [negb].
    unfold objects_link_new.
    rewrite in_objects_link_other by done.
    rewrite in_objects_fresh by done.
    unfold objects_unlink.
    rewrite in_objects_link_other by done.
    rewrite in_objects_link_same by done.
    destruct c as [|n]; [done|]. simpl.
    unfold drop_object. simpl. rewrite filter_fresh_snoc.
    + by destruct (scene_collection (v_colls st)).
    + intros Hin. pose proof (Hb SceneRoot _ _ eq_refl Hin). lia.
Qed.

Lemma new_cube_target (h : Host.naming) (name : string) (sx sy sz : fexpr)
    (loc : point) (c : cref) (st : view) :
  links_below (length (v_objs st)) (v_colls st) ->
  is_Some (collection_at c (v_colls st)) ->
  v_active_collection st = SceneRoot \/ v_active_collection st = c ->
  new_cube h name (sx, sy, sz) loc (Some c) st =
    (Ok (length (v_objs st)),
     View (v_objs st ++ [Object (h "Object" name (object_names (v_objs st)))
                                (Some (MeshData [])) (Some loc) []])
          (objects_link c (length (v_objs st)) (v_colls st))
          (<[length (v_objs st) := (half sx, half sy, half sz)]> (v_scale st))
          (v_active_collection st) (Some (length (v_objs st)))
          (<[length (v_objs st) := CubeMesh]> (v_geometry st))).
Proof.
  intros Hb Hc Hact. unfold new_cube. rewrite create_eq.
  by rewrite move_to_target.
Qed.

(** With the scene root as the active collection, or the target
    itself, new_cube returns the new object linked exactly once into
    the target collection and nowhere else: no collection but the
    target changes, the scene root included.  The object is a cube
    under the name the host gives it for the requested one, with the
    given location, an empty materials list, and half the size as its
    scale. *)
Theorem new_cube_lands_in_target (h : Host.naming) (name : string)
    (sx sy sz : fexpr) (loc : point) (c : cref) (st : view) :
  links_below (length (v_objs st)) (v_colls st) ->
  is_Some (collection_at c (v_colls st)) ->
  v_active_collection st = SceneRoot \/ v_active_collection st = c ->
  new_cube h name (sx, sy, sz) loc (Some c) st =
    (Ok (length (v_objs st)),
     View (v_objs st ++ [Object (h "Object" name (object_names (v_objs st)))
                                (Some (MeshData [])) (Some loc) []])
          (objects_link c (length (v_objs st)) (v_colls st))
          (<[length (v_objs st) := (half sx, half sy, half sz)]> (v_scale st))
          (v_active_collection st) (Some (length (v_objs st)))
          (<[length (v_objs st) := CubeMesh]> (v_geometry st))).
Proof. apply new_cube_target. Qed.

(** With any other active collection, new_cube with a target raises:
    the object is not in the scene root, so the unlink fails.  By then
    the object exists and is linked into both the active collection
    and the target, and not into the scene root. *)
Theorem new_cube_raises_off_root (h : Host.naming) (name : string)
    (sx sy sz : fexpr) (loc : point) (a n : string) (st : view) :
  links_below (length (v_objs st)) (v_colls st) ->
  v_active_collection st = Named a ->
  is_Some (collections (v_colls st) !! a) ->
  is_Some (collections (v_colls st) !! n) ->
  a <> n ->
  let o := length (v_objs st) in
  exists st',
    new_cube h name (sx, sy, sz) loc (Some (Named n)) st =
      (Raise (RuntimeError "Object not in collection"), st') /\
    length (v_objs st') = S o /\
    v_geometry st' !! o = Some CubeMesh /\
    in_objects (Named a) o (v_colls st') = true /\
    in_objects (Named n) o (v_colls st') = true /\
    in_objects SceneRoot o (v_colls st') = false.
Proof.
  intros Hb Hact Ha Hn Hne o. unfold new_cube. rewrite create_eq, Hact.
  fold o.
  assert (Named n <> Named a) by congruence.
  unfold move_to.
  cbn [v_colls v_objs v_scale v_active_collection v_active_object v_geometry].
  rewrite in_objects_link_other by done.
  rewrite in_objects_fresh by done. cbn [negb].
  unfold objects_link_new.
  rewrite in_objects_link_other by done.
  rewrite in_objects_fresh by done.
  unfold objects_unlink.
  rewrite !in_objects_link_other by done.
  rewrite in_objects_fresh by done.
  eexists. split; [reflexivity|].
  cbn [v_colls v_objs v_geometry].
  split; [rewrite length_app; simpl; lia|].
  split; [by rewrite lookup_insert_eq|].
  split.
  { rewrite in_objects_link_other by congruence.
    by apply in_objects_link_same. }
  split.
  { apply in_objects_link_same. simpl. by rewrite lookup_alter_ne by done. }
  rewrite !in_objects_link_other by done. by apply in_objects_fresh.
Qed.

(** new_plane with a target, the scene root or the target being the
    active collection: the new object is a plane, linked exactly once
    into the target and nowhere else, and its scale is half the size in
    x and y and 1 in z. *)
Theorem new_plane_lands_in_target (h : Host.naming) (name : string)
    (sx sy : fexpr) (loc : point) (c : cref) (st : view) :
  links_below (length (v_objs st)) (v_colls st) ->
  is_Some (collection_at c (v_colls st)) ->
  v_active_collection st = SceneRoot \/ v_active_collection st = c ->
  new_plane h name (sx, sy) loc (Some c) st =
    (Ok (length (v_objs st)),
     View (v_objs st ++ [Object (h "Object" name (object_names (v_objs st)))
                                (Some (MeshData [])) (Some loc) []])
          (objects_link c (length (v_objs st)) (v_colls st))
          (<[length (v_objs st) := (half sx, half sy, FLit 1)]> (v_scale st))
          (v_active_collection st) (Some (length (v_objs st)))
          (<[length (v_objs st) := PlaneMesh]> (v_geometry st))).
Proof.
  intros Hb Hc Hact. unfold new_plane. rewrite create_eq.
  by rewrite move_to_target.
Qed.

End PrimitiveFacts.

(** ** ensure_collection: what it leaves alone *)
Section CollectionMore.
Import Host Collections Invariants.

Lemma ensure_collection_contents (h : naming) (name : string)
    (parent : option cref) (st : store) :
  fresh h ->
  exists k,
    fst (ensure_collection h name parent st) = Named k /\
    let st' := snd (ensure_collection h name parent st) in
    dom (collections st') = {[k]} ∪ dom (collections st) /\
    (forall n c, collections st !! n = Some c ->
       exists c', collections st' !! n = Some c' /\
                  objects c' = objects c /\
                  (children c' = children c \/ children c' = children c ++ [k])) /\
    objects (scene_collection st') = objects (scene_collection st).
Proof.
  intros Hf. unfold ensure_collection.
  destruct (collections st !! name) as [c0|] eqn:Hc.
  - exists name. split; [done|]. cbn [snd]. split; [|split; [|done]].
    + symmetry. apply subseteq_union_1_L, singleton_subseteq_l.
      by apply elem_of_dom_2 in Hc.
    + intros n c Hn. exists c. eauto.
  - set (key := h "Collection" name (dom (collections st))).
    exists key.
    assert (Hkeep : forall n c, collections st !! n = Some c -> n <> key).
    { intros n c Hn ->. apply (Hf "Collection" name (dom (collections st))).
      by apply elem_of_dom_2 in Hn. }
    destruct parent as [[|pn]|]; cbn [fst snd children_link collections scene_collection].
    + split; [done|]. split; [by rewrite dom_insert_L|]. split; [|done].
      intros n c Hn. exists c. rewrite lookup_insert_ne by (symmetry; eauto). eauto.
    + split; [done|]. split; [by rewrite dom_alter_L, dom_insert_L|]. split; [|done].
      intros n c Hn. destruct (decide (n = pn)) as [->|Hne].
      * exists (link_child key c).
        rewrite lookup_alter_eq, lookup_insert_ne by (symmetry; eauto).
        rewrite Hn. simpl. eauto.
      * exists c. rewrite lookup_alter_ne, lookup_insert_ne by (symmetry; eauto).
        eauto.
    + split; [done|]. split; [by rewrite dom_insert_L|]. split; [|done].
      intros n c Hn. exists c. rewrite lookup_insert_ne by (symmetry; eauto). eauto.
Qed.

(** ensure_collection never removes a collection and never changes
    which objects a collection holds, the host giving a new collection
    a name that is not in use: afterwards the collections are the old
    ones and the returned one; every old collection keeps its objects,
    and keeps its children or gains the returned collection as last
    child; the scene root keeps its objects. *)
Theorem ensure_collection_keeps_contents (h : naming) (name : string)
    (parent : option cref) (st : store) :
  fresh h ->
  exists k,
    fst (ensure_collection h name parent st) = Named k /\
    let st' := snd (ensure_collection h name parent st) in
    dom (collections st') = {[k]} ∪ dom (collections st) /\
    (forall n c, collections st !! n = Some c ->
       exists c', collections st' !! n = Some c' /\
                  objects c' = objects c /\
                  (children c' = children c \/ children c' = children c ++ [k])) /\
    objects (scene_collection st') = objects (scene_collection st).
Proof. apply ensure_collection_contents. Qed.

(** Whatever the host names it, a collection after the call is a new,
    empty one or holds the objects it held. *)
Lemma ensure_collection_objects (h : naming) (name : string)
    (parent : option cref) (st : store) (c : cref) (col : collection) :
  collection_at c (snd (ensure_collection h name parent st)) = Some col ->
  objects col = [] \/
  exists col0, collection_at c st = Some col0 /\ objects col = objects col0.
Proof.
  unfold ensure_collection.
  destruct (collections st !! name) as [c0|] eqn:Hc; cbn [snd]; [eauto|].
  set (key := h "Collection" name (dom (collections st))).
  assert (Hlook : forall n x,
    <[key := Collection [] []]> (collections st) !! n = Some x ->
    objects x = [] \/
    exists col0, collections st !! n = Some col0 /\ objects x = objects col0).
  { intros n x. destruct (decide (n = key)) as [->|Hne].
    - rewrite lookup_insert_eq. intros [= <-]. by left.
    - rewrite lookup_insert_ne by done. eauto. }
  destruct parent as [[|pn]|], c as [|n];
    cbn [snd children_link collection_at collections scene_collection];
    try (by apply Hlook); try (intros [= <-]; right; eauto).
  destruct (decide (n = pn)) as [->|Hne].
  - rewrite lookup_alter_eq.
    destruct (<[key := Collection [] []]> (collections st) !! pn) as [x|] eqn:Hx;
      [|done].
    intros [= <-]. cbn [link_child objects]. by apply Hlook.
  - rewrite lookup_alter_ne by done. apply Hlook.
Qed.

(** ensure_collection creates collections that hold no object, so it
    keeps the bound on the linked object identifiers. *)
Lemma ensure_collection_below (h : naming) (name : string)
    (parent : option cref) (st : store) (k : nat) :
  links_below k st -> links_below k (snd (ensure_collection h name parent st)).
Proof.
  intros Hb c col o Hc Ho.
  destruct (ensure_collection_objects h name parent st c col Hc)
    as [Hnil|(col0 & Hc0 & Heq)].
  - rewrite Hnil in Ho. by apply elem_of_nil in Ho.
  - rewrite Heq in Ho. by eapply Hb.
Qed.

(** The two steps the script is built from, in sequence: a cube created
    with the collection that ensure_collection returned as its target,
    the scene root being the active collection, ends up in that
    collection and not in the scene root. *)
Theorem new_cube_into_ensured_collection (h : naming) (cname name : string)
    (parent : option cref) (sx sy sz : fexpr) (loc : point)
    (st : Primitives.view) :
  links_below (length (Primitives.v_objs st)) (Primitives.v_colls st) ->
  Primitives.v_active_collection st = SceneRoot ->
  let c := fst (ensure_collection h cname parent (Primitives.v_colls st)) in
  let cs := snd (ensure_collection h cname parent (Primitives.v_colls st)) in
  let o := length (Primitives.v_objs st) in
  exists st',
    Primitives.new_cube h name (sx, sy, sz) loc (Some c)
      (Primitives.View (Primitives.v_objs st) cs (Primitives.v_scale st)
                       SceneRoot (Primitives.v_active_object st)
                       (Primitives.v_geometry st)) = (Ok o, st') /\
    Primitives.in_objects c o (Primitives.v_colls st') = true /\
    Primitives.in_objects SceneRoot o (Primitives.v_colls st') = false.
Proof.
  intros Hb Hact c cs o.
  destruct (ensure_collection_creates h cname parent (Primitives.v_colls st))
    as (k & Hc & Hs).
  fold c in Hc. fold cs in Hs.
  assert (Hb' : links_below o cs) by by apply ensure_collection_below.
  eexists. split.
  { apply new_cube_target; simpl; [done|by rewrite Hc|by left]. }
  simpl. split.
  - apply in_objects_link_same. by rewrite Hc.
  - rewrite in_objects_link_other by (rewrite Hc; done).
    by apply in_objects_fresh.
Qed.

End CollectionMore.

(** ** add_bezier_path and the collections *)
Section PathMore.
Import Collections Objects Invariants Primitives Paths.

Lemma links_below_link (c : cref) (k : nat) (st : store) :
  links_below k st -> links_below (S k) (objects_link c k st).
Proof.
  intros Hb c' col o Hc Ho.
  destruct (decide (c' = c)) as [->|Hne].
  - rewrite collection_at_link_same in Hc.
    destruct (collection_at c st) as [col0|] eqn:Hc0; [|done].
    injection Hc as <-. simpl in Ho. apply elem_of_app in Ho as [Ho|Ho].
    + pose proof (Hb c col0 o Hc0 Ho). lia.
    + apply list_elem_of_singleton in Ho. lia.
  - rewrite collection_at_link_other in Hc by done.
    pose proof (Hb c' col o Hc Ho). lia.
Qed.

(** The curve object that add_bezier_path returns is new and is linked
    into exactly one collection, the given one or else the scene root:
    no object that existed changes, the identifier is the next free
    one, and the collections again link only existing objects. *)
Theorem add_bezier_path_links_once (h : Host.naming) (name : string)
    (points : list point) (col : option cref) (objs : list object)
    (cs : store) :
  points <> [] ->
  links_below (length objs) cs ->
  let target := match col with Some c => c | None => SceneRoot end in
  exists o objs' cs',
    add_bezier_path h name points col objs cs = Ok (o, objs', cs') /\
    o = length objs /\
    take (length objs) objs' = objs /\
    length objs' = S (length objs) /\
    links_below (length objs') cs' /\
    (forall c, in_objects c o cs' = true <->
               c = target /\ is_Some (collection_at target cs)).
Proof.
  intros Hne Hb target.
  rewrite add_bezier_path_nonempty by done.
  eexists _, _, _. split; [reflexivity|]. split; [done|].
  split; [by rewrite take_app_length|].
  split; [rewrite length_app; simpl; lia|].
  split.
  { rewrite length_app. simpl. rewrite Nat.add_1_r. by apply links_below_link. }
  intros c. fold target. split.
  - intros Hin. destruct (decide (c = target)) as [->|Hc].
    + split; [done|]. unfold in_objects in Hin.
      rewrite collection_at_link_same in Hin.
      by destruct (collection_at target cs).
    + rewrite in_objects_link_other, in_objects_fresh in Hin by done. done.
  - intros [-> Hs]. by apply in_objects_link_same.
Qed.

End PathMore.

(** ** build_scene as a whole *)
Section BuildSceneFacts.
Import Host NodeTree Collections Objects Paths Exporter Script Built Invariants Primitives.

Lemma ensure_collection_fst (h : naming) (name : string)
    (parent : option cref) (s : store) :
  exact h -> valid_name name = true ->
  fst (ensure_collection h name parent s) = Named name.
Proof.
  intros Hx Hv. unfold ensure_collection.
  destruct (collections s !! name) eqn:Hn; [done|].
  rewrite new_collection_key by done. by destruct parent.
Qed.

Lemma ensure_collection_dom (h : naming) (name : string)
    (parent : option cref) (s : store) :
  exact h -> valid_name name = true ->
  dom (collections (snd (ensure_collection h name parent s))) =
  {[name]} ∪ dom (collections s).
Proof.
  intros Hx Hv. unfold ensure_collection.
  destruct (collections s !! name) as [c|] eqn:Hc; simpl.
  - symmetry. apply subseteq_union_1_L, singleton_subseteq_l.
    by apply elem_of_dom_2 in Hc.
  - rewrite new_collection_key by done.
    destruct parent as [[|pn]|]; simpl;
      by rewrite ?dom_alter_L, dom_insert_L.
Qed.

Lemma objects_link_dom (c : cref) (o : nat) (s : store) :
  dom (collections (objects_link c o s)) = dom (collections s).
Proof. destruct c; simpl; [done|]. by rewrite dom_alter_L. Qed.

Lemma rebuild_material_tree_fst (bc m r : value) (nt : node_tree) :
  check_value ColorSocket bc = Ok tt ->
  check_value FloatSocket m = Ok tt ->
  check_value FloatSocket r = Ok tt ->
  fst (Materials.rebuild_material_tree bc m r nt) = Ok tt.
Proof.
  intros Hbc Hm Hr.
  unfold Materials.rebuild_material_tree, assign_default_value, nodes_new.
  cbn -[check_value remove_all_nodes].
  rewrite Hbc; cbn -[check_value remove_all_nodes].
  rewrite Hm; cbn -[check_value remove_all_nodes].
  by rewrite Hr.
Qed.

Lemma make_basic_material_ok (h : naming) (name : string) (c m r : value)
    (ms : gmap string Bpy.material) :
  exact h -> valid_name name = true ->
  check_value ColorSocket c = Ok tt ->
  check_value FloatSocket m = Ok tt ->
  check_value FloatSocket r = Ok tt ->
  fst (Materials.make_basic_material h name c m r ms) = Ok name /\
  dom (snd (Materials.make_basic_material h name c m r ms)) = {[name]} ∪ dom ms.
Proof.
  intros Hx Hv Hc Hm Hr. rewrite make_basic_material_eq. cbv zeta. cbn [fst snd].
  rewrite rebuild_material_tree_fst by done.
  rewrite material_key_exact by done. by rewrite dom_insert_L.
Qed.

Lemma configure_world_snd (ws : gmap string Bpy.world) :
  fst (WorldSetup.configure_world ws) = "World" /\
  dom (snd (WorldSetup.configure_world ws)) = {["World"]} ∪ dom ws.
Proof. unfold WorldSetup.configure_world. simpl. by rewrite dom_insert_L. Qed.

Lemma bind_get_bl {B} (k : blender -> S B) (st : session) :
  (get_bl ≫= k) st = k (bl st) st.
Proof. reflexivity. Qed.

Lemma bind_put_bl {B} (b : blender) (k : unit -> S B) (st : session) :
  (put_bl b ≫= k) st = k tt (Session b (sys st)).
Proof. reflexivity. Qed.

Lemma bind_emit {B} (e : event) (k : unit -> S B) (st : session) :
  (lift_io (emit e) ≫= k) st =
  k tt (Session (bl st) (IO (fs (sys st)) (trace (sys st) ++ [e]))).
Proof. reflexivity. Qed.

Lemma bind_ensure_collection {B} (h : naming) (name : string)
    (parent : option cref) (k : cref -> S B) (st : session) :
  exact h -> valid_name name = true ->
  (ensure_collection_s h name parent ≫= k) st =
  k (Named name)
    (Session (set_colls (snd (ensure_collection h name parent (colls (bl st))))
                        (bl st))
             (sys st)).
Proof.
  intros Hx Hv.
  unfold ensure_collection_s, mbind, S_bind, get_bl, put_bl, mret, S_ret.
  pose proof (ensure_collection_fst h name parent (colls (bl st)) Hx Hv) as Hf.
  destruct (ensure_collection h name parent (colls (bl st))) as [c cs].
  simpl in *. by subst.
Qed.

Lemma bind_make_basic_material {B} (h : naming) (name : string) (c m r : value)
    (k : string -> S B) (st : session) :
  exact h -> valid_name name = true ->
  check_value ColorSocket c = Ok tt ->
  check_value FloatSocket m = Ok tt ->
  check_value FloatSocket r = Ok tt ->
  (make_basic_material_s h name c m r ≫= k) st =
  k name
    (Session (set_materials
                (snd (Materials.make_basic_material h name c m r (materials (bl st))))
                (bl st))
             (sys st)).
Proof.
  intros Hx Hv Hc Hm Hr.
  unfold make_basic_material_s, mbind, S_bind, get_bl, put_bl, mret, S_ret.
  destruct (make_basic_material_ok h name c m r (materials (bl st)))
    as [Hf _]; try done.
  destruct (Materials.make_basic_material h name c m r (materials (bl st)))
    as [res ms].
  simpl in *. by subst.
Qed.

Ltac norm_state :=
  cbv beta;
  cbn [bl sys fs trace objs colls materials worlds scene scene_world
       scene_camera active markers set_colls set_objs set_materials
       set_worlds set_scene set_scene_world set_scene_camera set_active
       set_markers].

(** The state in which build_scene stops. *)
Lemma build_scene_state (h : naming) (st : session) :
  exact h ->
  let n := length (objs (bl st)) in
  exists b',
    build_scene h st =
      (Raise (AttributeError "use_cyclic_u"), Session b' (sys st)) /\
    objs b' = objs (bl st) ++ built_objects h (objs (bl st)) /\
    markers b' = markers (bl st) /\
    scene_camera b' = scene_camera (bl st) /\
    active b' = active (bl st) /\
    scene_world b' = Some "World" /\
    scene b' = Render.configure_render (scene (bl st)) /\
    dom (collections (colls b')) = built_collections ∪ dom (collections (colls (bl st))) /\
    dom (materials b') = built_materials ∪ dom (materials (bl st)) /\
    dom (worlds b') = {["World"]} ∪ dom (worlds (bl st)) /\
    (exists cs, colls b' =
       objects_link (Named "Cameras_Aerial") (n + 1)
         (objects_link (Named "Cameras_Walkthrough") n cs) /\
       dom (collections cs) = dom (collections (colls b'))).
Proof.
  intros Hx n. unfold build_scene.
  rewrite bind_get_bl. norm_state. rewrite bind_put_bl. norm_state.
  do 9 (rewrite bind_ensure_collection by done; norm_state).
  do 6 (rewrite bind_make_basic_material by done; norm_state).
  rewrite bind_get_bl. norm_state.
  pose proof (configure_world_snd (worlds (bl st))) as [Fw Dw].
  destruct (WorldSetup.configure_world (worlds (bl st))) as [world ws'].
  cbn [fst snd] in Fw, Dw. subst world.
  rewrite bind_put_bl. norm_state. rewrite bind_get_bl. norm_state.
  rewrite build_paths_raises. cbv beta iota.
  rewrite bind_put_bl. norm_state. unfold raise.
  match goal with
  | |- exists b', (_, Session ?B _) = _ /\ _ => exists B
  end.
  split; [done|]. norm_state. fold n.
  split; [done|]. split; [done|]. split; [done|]. split; [done|].
  split; [done|]. split; [done|].
  split.
  { rewrite !objects_link_dom, !ensure_collection_dom by done.
    unfold built_collections.
    apply set_eq. intros x. rewrite !elem_of_union, !elem_of_singleton. tauto. }
  split.
  { repeat match goal with
    | |- context [dom (snd (Materials.make_basic_material h ?nm ?c ?m ?r ?ms))] =>
        rewrite (proj2 (make_basic_material_ok h nm c m r ms Hx eq_refl eq_refl
                          eq_refl eq_refl))
    end.
    unfold built_materials.
    apply set_eq. intros x. rewrite !elem_of_union, !elem_of_singleton. tauto. }
  split; [done|].
  eexists. split.
  { replace (n + 1) with (Datatypes.S n) by lia. reflexivity. }
  by rewrite !objects_link_dom.
Qed.

(** One run of build_scene, from any session, the host storing valid
    names as given: it stops at line 179 with the AttributeError of the
    assignment to [use_cyclic_u], having touched no file and attempted
    no operator.  By then the render settings, the nine collections,
    the six materials and the world are set up and the two path
    curves exist, each linked into its camera collection; there is no
    camera, no constraint and no marker, and the scene camera and the
    active object are what they were. *)
Theorem build_scene_stops_at_line_179 (h : naming) (st : session) :
  exact h ->
  let n := length (objs (bl st)) in
  exists b',
    build_scene h st =
      (Raise (AttributeError "use_cyclic_u"), Session b' (sys st)) /\
    objs b' = objs (bl st) ++ built_objects h (objs (bl st)) /\
    in_objects (Named "Cameras_Walkthrough") n (colls b') = true /\
    in_objects (Named "Cameras_Aerial") (n + 1) (colls b') = true /\
    markers b' = markers (bl st) /\
    scene_camera b' = scene_camera (bl st) /\
    active b' = active (bl st) /\
    scene_world b' = Some "World" /\
    scene b' = Render.configure_render (scene (bl st)) /\
    dom (collections (colls b')) = built_collections ∪ dom (collections (colls (bl st))) /\
    dom (materials b') = built_materials ∪ dom (materials (bl st)) /\
    dom (worlds b') = {["World"]} ∪ dom (worlds (bl st)).
Proof.
  intros Hx n.
  destruct (build_scene_state h st Hx)
    as (b' & Hrun & Ho & Hm & Hc & Ha & Hw & Hs & Hdc & Hdm & Hdw & cs & Hcs & Hdcs).
  fold n in Hcs.
  assert (Hin : forall x, x ∈ built_collections ->
                          is_Some (collection_at (Named x) cs)).
  { intros x Hin. simpl. apply elem_of_dom. rewrite Hdcs, Hdc.
    apply elem_of_union. by left. }
  exists b'. split; [exact Hrun|]. split; [exact Ho|].
  split.
  { rewrite Hcs. rewrite in_objects_link_other' by done.
    apply in_objects_link_same, Hin. unfold built_collections.
    rewrite !elem_of_union, !elem_of_singleton. tauto. }
  split.
  { rewrite Hcs. apply in_objects_link_same.
    destruct (Hin "Cameras_Aerial") as [x Hxx].
    { unfold built_collections.
      rewrite !elem_of_union, !elem_of_singleton. tauto. }
    simpl in *. rewrite lookup_alter_ne by done. eauto. }
  repeat (split; [assumption|]). assumption.
Qed.

(** Running build_scene a second time stops at line 179 again.  It
    reuses what it finds by name, so the collections, materials and
    worlds are those of the first run; and it has created two more
    curves, to which the host, giving only names that are not in use,
    has given names other than those of the first run's curves. *)
Theorem build_scene_rerun (h : naming) (st : session) :
  exact h -> fresh h ->
  exists b1 b2 walk2 aero2,
    build_scene h st =
      (Raise (AttributeError "use_cyclic_u"), Session b1 (sys st)) /\
    build_scene h (Session b1 (sys st)) =
      (Raise (AttributeError "use_cyclic_u"), Session b2 (sys st)) /\
    dom (collections (colls b2)) = dom (collections (colls b1)) /\
    dom (materials b2) = dom (materials b1) /\
    dom (worlds b2) = dom (worlds b1) /\
    objs b2 = objs b1 ++ [walk2; aero2] /\
    objs b1 = objs (bl st) ++ built_objects h (objs (bl st)) /\
    (obj_name walk2 ∉ object_names (objs b1)) /\
    (obj_name aero2 ∉ object_names (objs b1)) /\
    obj_name aero2 <> obj_name walk2.
Proof.
  intros Hx Hf.
  destruct (build_scene_state h st Hx)
    as (b1 & Hrun1 & Ho1 & _ & _ & _ & _ & _ & Hc1 & Hmat1 & Hw1 & _).
  destruct (build_scene_state h (Session b1 (sys st)) Hx)
    as (b2 & Hrun2 & Ho2 & _ & _ & _ & _ & _ & Hc2 & Hmat2 & Hw2 & _).
  cbn [bl sys] in *.
  exists b1, b2, (walk_object h (objs b1)), (aero_object h (objs b1)).
  split; [exact Hrun1|]. split; [exact Hrun2|].
  split.
  { rewrite Hc2, Hc1. rewrite (assoc_L (∪)). rewrite union_idemp_L. reflexivity. }
  split.
  { rewrite Hmat2, Hmat1. rewrite (assoc_L (∪)). rewrite union_idemp_L. reflexivity. }
  split.
  { rewrite Hw2, Hw1. rewrite (assoc_L (∪)). rewrite union_idemp_L. reflexivity. }
  split; [exact Ho2|]. split; [exact Ho1|].
  split; [apply Hf|].
  assert (Ha : obj_name (aero_object h (objs b1)) ∉
               object_names (objs b1 ++ [walk_object h (objs b1)])) by apply Hf.
  unfold object_names in Ha. rewrite fmap_app, list_to_set_app_L in Ha.
  apply not_elem_of_union in Ha as [Ha1 Ha2].
  split; [exact Ha1|].
  intros Heq. apply Ha2. rewrite Heq. apply elem_of_list_to_set.
  apply (list_elem_of_fmap_2 obj_name). left.
Qed.

End BuildSceneFacts.

(** ** ensure_dir and export_fbx_and_zip: edges and repetition *)
Section ExportMore.
Import Path FS Exporter.

(** A call of ensure_dir that returns normally leaves a directory at
    the path, so a second call finds it and does nothing: no
    os.makedirs, no change of the files. *)
Theorem ensure_dir_twice (p : string) (st st1 : io) :
  ensure_dir p st = (Ok tt, st1) ->
  isdir (components p) (fs st1) = true /\
  ensure_dir p st1 = (Ok tt, st1).
Proof.
  intros Hrun. apply ensure_dir_in_ok in Hrun.
  split; [|by apply ensure_dir_present].
  unfold isdir_path in Hrun. by apply andb_true_iff in Hrun as [_ Hd].
Qed.

(** When a regular file sits where the directory should be, inside an
    existing directory, ensure_dir raises FileExistsError (exist_ok
    covers directories only), and export_fbx_and_zip ends with that
    exception before it exports: the files are untouched and os.makedirs
    is the only operation attempted. *)
Theorem export_dir_is_a_file (b : string) (fbx_ok : bool)
    (scene : list Objects.object) (st : io) (d : list string) (x : string)
    (c : content) :
  let E := b +:+ "exports/" in
  components E = d ++ [x] ->
  isdir d (fs st) = true ->
  fs st !! (d ++ [x]) = Some (File c) ->
  ensure_dir E st =
    (Raise (FileExistsError (d ++ [x])), IO (fs st) (trace st ++ [MakeDirs E])) /\
  export_fbx_and_zip b fbx_ok scene st =
    (Raise (FileExistsError (d ++ [x])), IO (fs st) (trace st ++ [MakeDirs E])).
Proof.
  intros E Hc Hd Hf.
  assert (Hbase : always_there (d ++ [x]) = false).
  { rewrite <- Hc. apply always_there_export_dir. }
  assert (Hl : lookup_node (fs st) (d ++ [x]) = Some (File c)).
  { by rewrite lookup_node_other, Hf. }
  assert (Hens : ensure_dir E st =
    (Raise (FileExistsError (d ++ [x])), IO (fs st) (trace st ++ [MakeDirs E]))).
  { unfold ensure_dir, ensure_dir_in. unfold E at 1.
    rewrite isdir_path_export_dir. fold E. rewrite Hc.
    assert (Hnd : isdir (d ++ [x]) (fs st) = false)
      by (unfold isdir; by rewrite Hl).
    rewrite Hnd. cbn [negb].
    unfold attempt, no_faults, on_fs, makedirs_path. cbn [fs trace].
    unfold E at 1. rewrite export_dir_nonempty. fold E. rewrite Hc.
    rewrite rev_unit. cbn [makedirs].
    assert (Hmade :
      match rev d with
      | [] => Ok (fs st)
      | _ :: _ =>
          if exists_ (rev (rev d)) (fs st) then Ok (fs st)
          else match makedirs (rev d) (fs st) with
               | Ok fs' => Ok fs'
               | Raise (FileExistsError _) => Ok (fs st)
               | Raise e => Raise e
               end
      end = Ok (fs st)).
    { rewrite rev_involutive. destruct (rev d); [done|].
      unfold exists_. unfold isdir in Hd.
      by destruct (lookup_node (fs st) d). }
    rewrite Hmade. cbn [mbind result_bind].
    unfold mkdir. rewrite <- rev_unit, rev_involutive.
    rewrite Hl. by rewrite Hnd. }
  split; [exact Hens|].
  unfold export_fbx_and_zip, export_in. cbv zeta. fold E.
  unfold mbind at 1. unfold M_bind at 1.
  unfold ensure_dir in Hens.
  destruct fbx_ok.
  - by rewrite Hens.
  - assert (Hsame : ensure_dir_in exporter_fails E st = ensure_dir_in no_faults E st)
      by reflexivity.
    by rewrite Hsame, Hens.
Qed.

(** A second export overwrites the first: after two successful runs,
    with any two scenes, the three files are what the second run alone
    would have written, the archive holds its two entries and not
    four, and the second run makes no directory. *)
Theorem export_again_overwrites (b : string)
    (scene1 scene2 : list Objects.object) (st st1 : io) :
  let E := b +:+ "exports/" in
  let d := components E in
  ensure_dir E st = (Ok tt, st1) ->
  isdir d (fs st1) = true ->
  fs st1 !! (d ++ ["Duplex_House.fbx"]) <> Some Dir ->
  fs st1 !! (d ++ ["README_Import.txt"]) <> Some Dir ->
  fs st1 !! (d ++ ["Duplex_House_FBX.zip"]) <> Some Dir ->
  exists st2 st3 new,
    export_fbx_and_zip b true scene1 st = (Ok tt, st2) /\
    export_fbx_and_zip b true scene2 st2 = (Ok tt, st3) /\
    fs st3 =
      <[d ++ ["Duplex_House_FBX.zip"] :=
          File (Zip [("Duplex_House.fbx", Fbx scene2);
                     ("README_Import.txt", Text readme_text)])]>
        (<[d ++ ["README_Import.txt"] := File (Text readme_text)]>
           (<[d ++ ["Duplex_House.fbx"] := File (Fbx scene2)]> (fs st1))) /\
    trace st3 = trace st2 ++ new /\
    MakeDirs E ∉ new.
Proof.
  intros E d Hens Hd Hf Hr Hz.
  pose proof (export_run b scene1 st st1 Hens Hd Hf Hr Hz) as Hrun1.
  fold E in Hrun1. fold d in Hrun1.
  set (st2 := IO _ _) in Hrun1.
  assert (Hd2 : isdir d (fs st2) = true).
  { subst st2. cbn [fs]. by rewrite !isdir_insert_snoc. }
  assert (Hens2 : ensure_dir E st2 = (Ok tt, st2)).
  { apply ensure_dir_present. unfold E. by rewrite isdir_path_export_dir. }
  assert (Hne : forall a a' : string, a <> a' -> d ++ [a] <> d ++ [a'])
    by (intros a a' Ha Heq; apply app_inv_head in Heq; congruence).
  pose proof (export_run b scene2 st2 st2 Hens2 Hd2) as Hrun2.
  fold E in Hrun2. fold d in Hrun2.
  eexists st2, _, _. split; [exact Hrun1|].
  split.
  { apply Hrun2; subst st2; cbn [fs].
    - rewrite !lookup_insert_ne by (apply Hne; done).
      by rewrite lookup_insert_eq.
    - rewrite lookup_insert_ne by (apply Hne; done).
      by rewrite lookup_insert_eq.
    - by rewrite lookup_insert_eq. }
  cbn [fs trace]. split.
  { subst st2. cbn [fs]. apply map_eq. intros k.
    rewrite !lookup_insert. repeat case_decide; try done. }
  split; [reflexivity|].
  rewrite !not_elem_of_cons. repeat split; try done. apply not_elem_of_nil.
Qed.

End ExportMore.

(** ** follow_path (lines 191 to 196) *)
Section FollowPathFacts.
Import Objects Exporter Script.


End FollowPathFacts.

(** ** The [__main__] block, the layout of the file repaired *)
Section MainMore.
Import Host Objects Exporter Script Built.

(** Were the file accepted, the [__main__] block would stop inside
    build_scene, at line 179: export_fbx_and_zip is never called,
    whether the exporter would succeed or not, no file is written, and
    the only call made is that of build_scene, which leaves the two
    path curves behind. *)
Theorem main_stops_in_build_scene (h : naming) (blend_dir : string)
    (fbx_ok : bool) (st : session) :
  exact h ->
  exists b',
    main h blend_dir fbx_ok st =
      (Raise (AttributeError "use_cyclic_u"),
       Session b' (IO (fs (sys st)) (trace (sys st) ++ [Call "build_scene"]))) /\
    objs b' = objs (bl st) ++ built_objects h (objs (bl st)).
Proof.
  intros Hx.
  destruct (build_scene_state h
              (Session (bl st) (IO (fs (sys st)) (trace (sys st) ++ [Call "build_scene"])))
              Hx)
    as (b' & Hrun & Ho & _).
  cbn [bl sys] in *.
  exists b'. split; [|exact Ho].
  unfold main. rewrite bind_emit.
  unfold mbind at 1. unfold S_bind at 1. by rewrite Hrun.
Qed.

End MainMore.

(** ** The world block, repeated *)
Section WorldMore.
Import NodeTree Bpy WorldSetup Built.

Lemma world_tree_result (worlds : gmap string world) :
  (forall w t, worlds !! "World" = Some w -> world_node_tree w = Some t ->
               links_closed t) ->
  exists k,
    configure_world worlds =
      ("World", <["World" := World true (Some (world_tree k))]> worlds).
Proof.
  intros Hwf. unfold configure_world.
  set (w := match worlds !! "World" with Some w => w | None => World false None end).
  assert (Hc : links_closed (tree_or default_world_tree (world_node_tree w))).
  { subst w. destruct (worlds !! "World") as [w|] eqn:Hw; simpl.
    - destruct (world_node_tree w) as [t|] eqn:Ht; simpl.
      + by eapply Hwf.
      + apply default_world_tree_closed.
    - apply default_world_tree_closed. }
  rewrite (rebuild_world_tree_closed _ Hc). by eexists.
Qed.

(** Running the world block again rebuilds the same graph: the world
    named World again has exactly the three nodes and two links, with
    node identifiers not used in the first run, and every other world
    is as it was. *)
Theorem configure_world_again (worlds : gmap string world) :
  (forall w t, worlds !! "World" = Some w -> world_node_tree w = Some t ->
               links_closed t) ->
  exists k1 k2,
    k1 + 2 < k2 /\
    configure_world worlds =
      ("World", <["World" := World true (Some (world_tree k1))]> worlds) /\
    configure_world (snd (configure_world worlds)) =
      ("World", <["World" := World true (Some (world_tree k2))]> worlds).
Proof.
  intros Hwf.
  destruct (world_tree_result worlds Hwf) as (k1 & H1).
  exists k1, (S (S (S k1))). split; [lia|]. split; [exact H1|].
  rewrite H1. simpl. unfold configure_world.
  rewrite lookup_insert_eq. simpl.
  rewrite rebuild_world_tree_closed;
    [|unfold links_closed; simpl; repeat constructor].
  simpl. by rewrite insert_insert_eq.
Qed.

End WorldMore.

(** ** The layout of the file, with line 124 moved *)
Section LayoutMore.
Import Layout Relayout.

(** Wherever line 124 is put, the file is accepted exactly when it is
    put at column 4, the column of the rest of build_scene's body: at
    column 0 line 125 is an unexpected indent, between 1 and 3 line 124
    matches no enclosing level, and beyond 4 line 124 is itself an
    unexpected indent. *)
Theorem only_column_four_repairs (c : nat) :
  compile (reindent 124 c source_lines) =
    if Nat.eqb c 4 then None
    else if Nat.eqb c 0 then Some (UnexpectedIndent 125)
    else if Nat.ltb c 4 then Some (InconsistentDedent 124)
    else Some (UnexpectedIndent 124).
Proof.
  destruct c as [|[|[|[|[|k]]]]]; reflexivity.
Qed.

End LayoutMore.

(** ** The theorems with premises, at concrete inputs *)
Section MoreWitnesses.
Import Host NodeTree Bpy Materials WorldSetup Collections Objects Invariants
       Primitives Paths Path FS Exporter Script Built Samples.

Lemma one_collection_below : links_below 0 one_collection.
Proof.
  intros c col o Hc Ho. destruct c as [|n]; simpl in Hc.
  - injection Hc as <-. by apply elem_of_nil in Ho.
  - destruct (decide (n = "Ground_Floor")) as [->|Hn].
    + rewrite lookup_singleton_eq in Hc. injection Hc as <-.
      by apply elem_of_nil in Ho.
    + by rewrite lookup_singleton_ne in Hc.
Qed.

Lemma two_collections_below : links_below 0 two_collections.
Proof.
  intros c col o Hc Ho. destruct c as [|n]; simpl in Hc.
  - injection Hc as <-. by apply elem_of_nil in Ho.
  - destruct (decide (n = "Furniture")) as [->|Hn].
    + rewrite lookup_insert_eq in Hc. injection Hc as <-.
      by apply elem_of_nil in Ho.
    + rewrite lookup_insert_ne in Hc by done.
      destruct (decide (n = "Ground_Floor")) as [->|Hn'].
      * rewrite lookup_singleton_eq in Hc. injection Hc as <-.
        by apply elem_of_nil in Ho.
      * by rewrite lookup_singleton_ne in Hc.
Qed.

Lemma assign_material_slot_count_witness :
  exists d' ms',
    obj_data (assign_material
                (Object "Wall" (Some (MeshData ["Old"; "Trim"])) None []) "Wall_Paint")
      = Some d' /\
    data_materials d' = Some ms' /\
    length ms' = Nat.max 1 2 /\
    head ms' = Some "Wall_Paint" /\
    tail ms' = ["Trim"].
Proof.
  apply (assign_material_slot_count
           (Object "Wall" (Some (MeshData ["Old"; "Trim"])) None []) "Wall_Paint"
           (MeshData ["Old"; "Trim"]) ["Old"; "Trim"]); reflexivity.
Defined.

Lemma default_store_closed :
  trees_closed {[ "Wood" := Material true (Some default_material_tree) ]}.
Proof.
  intros n m t Hn Ht. destruct (decide (n = "Wood")) as [->|Hne].
  - rewrite lookup_singleton_eq in Hn. injection Hn as <-. injection Ht as <-.
    apply default_material_tree_closed.
  - by rewrite lookup_singleton_ne in Hn.
Qed.

Lemma make_basic_material_keeps_closed_witness :
  trees_closed
    (snd (make_basic_material blender_names "Wood"
            (VTuple [FLit 0.5; FLit 0.35; FLit 0.2; FLit 1])
            (VNum (FLit 0)) (VNum (FLit 0.5))
            {[ "Wood" := Material true (Some default_material_tree) ]})).
Proof.
  apply make_basic_material_keeps_closed. apply default_store_closed.
Defined.

Lemma make_basic_material_again_witness :
  let c1 := VTuple [FLit 0.5; FLit 0.35; FLit 0.2; FLit 1] in
  let c2 := VTuple [FLit 0.1; FLit 0.1; FLit 0.1; FLit 1] in
  exists k1 k2,
    make_basic_material blender_names "Wood" c1 (VNum (FLit 0)) (VNum (FLit 0.5)) ∅ =
      (Ok "Wood",
       <["Wood" := Material true
           (Some (material_tree k1 c1 (VNum (FLit 0)) (VNum (FLit 0.5))))]> ∅) /\
    make_basic_material blender_names "Wood" c2 (VNum (FLit 1)) (VNum (FLit 0.9))
        (snd (make_basic_material blender_names "Wood" c1 (VNum (FLit 0))
                (VNum (FLit 0.5)) ∅)) =
      (Ok "Wood",
       <["Wood" := Material true
           (Some (material_tree k2 c2 (VNum (FLit 1)) (VNum (FLit 0.9))))]> ∅).
Proof.
  intros c1 c2.
  apply (make_basic_material_again blender_names "Wood");
    [apply blender_names_exact|reflexivity..|].
  intros old t Hold. by rewrite lookup_empty in Hold.
Defined.

Lemma configure_world_again_witness :
  exists k1 k2,
    k1 + 2 < k2 /\
    configure_world ∅ =
      ("World", <["World" := World true (Some (world_tree k1))]> ∅) /\
    configure_world (snd (configure_world ∅)) =
      ("World", <["World" := World true (Some (world_tree k2))]> ∅).
Proof.
  apply (configure_world_again ∅).
  intros w t Hw. by rewrite lookup_empty in Hw.
Defined.

Lemma new_cube_lands_in_target_witness :
  new_cube blender_names "Slab" (FLit 4, FLit 2, FLit 1) (FLit 0, FLit 0, FLit 0)
      (Some (Named "Ground_Floor")) (empty_view one_collection SceneRoot) =
    (Ok 0,
     View [Object "Slab" (Some (MeshData [])) (Some (FLit 0, FLit 0, FLit 0)) []]
          (objects_link (Named "Ground_Floor") 0 one_collection)
          (<[0 := (half (FLit 4), half (FLit 2), half (FLit 1))]> ∅)
          SceneRoot (Some 0) (<[0 := CubeMesh]> ∅)).
Proof.
  apply (new_cube_lands_in_target blender_names "Slab" (FLit 4) (FLit 2) (FLit 1)
           (FLit 0, FLit 0, FLit 0) (Named "Ground_Floor")
           (empty_view one_collection SceneRoot)).
  - apply one_collection_below.
  - simpl. by rewrite lookup_singleton_eq.
  - by left.
Defined.

(** The furniture collection is the active one, the cube is meant for
    the ground floor. *)
Lemma new_cube_raises_off_root_witness :
  exists st',
    new_cube blender_names "Slab" (FLit 4, FLit 2, FLit 1) (FLit 0, FLit 0, FLit 0)
        (Some (Named "Ground_Floor"))
        (empty_view two_collections (Named "Furniture")) =
      (Raise (RuntimeError "Object not in collection"), st') /\
    length (v_objs st') = 1 /\
    v_geometry st' !! 0 = Some CubeMesh /\
    in_objects (Named "Furniture") 0 (v_colls st') = true /\
    in_objects (Named "Ground_Floor") 0 (v_colls st') = true /\
    in_objects SceneRoot 0 (v_colls st') = false.
Proof.
  apply (new_cube_raises_off_root blender_names "Slab" (FLit 4) (FLit 2) (FLit 1)
           (FLit 0, FLit 0, FLit 0) "Furniture" "Ground_Floor"
           (empty_view two_collections (Named "Furniture"))).
  - apply two_collections_below.
  - reflexivity.
  - simpl. by rewrite lookup_insert_eq.
  - simpl. by rewrite lookup_insert_ne, lookup_singleton_eq.
  - discriminate.
Defined.

Lemma new_plane_lands_in_target_witness :
  new_plane blender_names "Lawn" (FLit 10, FLit 8) (FLit 0, FLit 0, FLit 0)
      (Some (Named "Ground_Floor")) (empty_view one_collection SceneRoot) =
    (Ok 0,
     View [Object "Lawn" (Some (MeshData [])) (Some (FLit 0, FLit 0, FLit 0)) []]
          (objects_link (Named "Ground_Floor") 0 one_collection)
          (<[0 := (half (FLit 10), half (FLit 8), FLit 1)]> ∅)
          SceneRoot (Some 0) (<[0 := PlaneMesh]> ∅)).
Proof.
  apply (new_plane_lands_in_target blender_names "Lawn" (FLit 10) (FLit 8)
           (FLit 0, FLit 0, FLit 0) (Named "Ground_Floor")
           (empty_view one_collection SceneRoot)).
  - apply one_collection_below.
  - simpl. by rewrite lookup_singleton_eq.
  - by left.
Defined.

Lemma ensure_collection_keeps_contents_witness :
  exists k,
    fst (ensure_collection blender_names "Furniture" None one_collection) = Named k /\
    let st' := snd (ensure_collection blender_names "Furniture" None one_collection) in
    dom (collections st') = {[k]} ∪ dom (collections one_collection) /\
    (forall n c, collections one_collection !! n = Some c ->
       exists c', collections st' !! n = Some c' /\
                  objects c' = objects c /\
                  (children c' = children c \/ children c' = children c ++ [k])) /\
    objects (scene_collection st') = objects (scene_collection one_collection).
Proof.
  apply (ensure_collection_keeps_contents blender_names "Furniture" None
           one_collection).
  apply blender_names_fresh.
Defined.

Lemma new_cube_into_ensured_collection_witness :
  exists st',
    new_cube blender_names "Chair" (FLit 1, FLit 1, FLit 1) (FLit 0, FLit 0, FLit 0)
      (Some (fst (ensure_collection blender_names "Furniture" None one_collection)))
      (View [] (snd (ensure_collection blender_names "Furniture" None one_collection))
            ∅ SceneRoot None ∅) = (Ok 0, st') /\
    in_objects (fst (ensure_collection blender_names "Furniture" None one_collection))
               0 (v_colls st') = true /\
    in_objects SceneRoot 0 (v_colls st') = false.
Proof.
  apply (new_cube_into_ensured_collection blender_names "Furniture" "Chair" None
           (FLit 1) (FLit 1) (FLit 1) (FLit 0, FLit 0, FLit 0)
           (empty_view one_collection SceneRoot)).
  - apply one_collection_below.
  - reflexivity.
Defined.

Lemma add_bezier_path_links_once_witness :
  exists o objs' cs',
    add_bezier_path blender_names "Walkthrough_Path" walk_pts
      (Some (Named "Ground_Floor")) [] one_collection = Ok (o, objs', cs') /\
    o = 0 /\
    take 0 objs' = [] /\
    length objs' = 1 /\
    links_below (length objs') cs' /\
    (forall c, in_objects c o cs' = true <->
               c = Named "Ground_Floor" /\
               is_Some (collection_at (Named "Ground_Floor") one_collection)).
Proof.
  apply (add_bezier_path_links_once blender_names "Walkthrough_Path" walk_pts
           (Some (Named "Ground_Floor")) [] one_collection).
  - discriminate.
  - apply one_collection_below.
Defined.

(** build_scene in a session with nothing in it. *)
Lemma build_scene_stops_at_line_179_witness :
  exists b',
    build_scene blender_names empty_session =
      (Raise (AttributeError "use_cyclic_u"), Session b' (IO ∅ [])) /\
    objs b' = [] ++ built_objects blender_names [] /\
    in_objects (Named "Cameras_Walkthrough") 0 (colls b') = true /\
    in_objects (Named "Cameras_Aerial") (0 + 1) (colls b') = true /\
    markers b' = [] /\
    scene_camera b' = None /\
    active b' = None /\
    scene_world b' = Some "World" /\
    scene b' = Render.configure_render ∅ /\
    dom (collections (colls b')) = built_collections ∪ dom (∅ : gmap string collection) /\
    dom (materials b') = built_materials ∪ dom (∅ : gmap string material) /\
    dom (worlds b') = {["World"]} ∪ dom (∅ : gmap string world).
Proof.
  apply (build_scene_stops_at_line_179 blender_names empty_session).
  apply blender_names_exact.
Defined.

Lemma build_scene_rerun_witness :
  exists b1 b2 walk2 aero2,
    build_scene blender_names empty_session =
      (Raise (AttributeError "use_cyclic_u"), Session b1 (IO ∅ [])) /\
    build_scene blender_names (Session b1 (IO ∅ [])) =
      (Raise (AttributeError "use_cyclic_u"), Session b2 (IO ∅ [])) /\
    dom (collections (colls b2)) = dom (collections (colls b1)) /\
    dom (materials b2) = dom (materials b1) /\
    dom (worlds b2) = dom (worlds b1) /\
    objs b2 = objs b1 ++ [walk2; aero2] /\
    objs b1 = [] ++ built_objects blender_names [] /\
    (obj_name walk2 ∉ object_names (objs b1)) /\
    (obj_name aero2 ∉ object_names (objs b1)) /\
    obj_name aero2 <> obj_name walk2.
Proof.
  apply (build_scene_rerun blender_names empty_session).
  - apply blender_names_exact.
  - apply blender_names_fresh.
Defined.

Lemma main_stops_in_build_scene_witness :
  exists b',
    main blender_names "/home/u/" true empty_session =
      (Raise (AttributeError "use_cyclic_u"),
       Session b' (IO ∅ ([] ++ [Call "build_scene"]))) /\
    objs b' = [] ++ built_objects blender_names [].
Proof.
  apply (main_stops_in_build_scene blender_names "/home/u/" true empty_session).
  apply blender_names_exact.
Defined.


Lemma ensure_dir_twice_witness :
  isdir (components "exports/") {[ ["exports"] := Dir ]} = true /\
  ensure_dir "exports/" (IO {[ ["exports"] := Dir ]} [MakeDirs "exports/"]) =
    (Ok tt, IO {[ ["exports"] := Dir ]} [MakeDirs "exports/"]).
Proof.
  exact (ensure_dir_twice "exports/" (IO ∅ [])
           (IO {[ ["exports"] := Dir ]} [MakeDirs "exports/"]) eq_refl).
Defined.

Lemma export_dir_is_a_file_witness :
  ensure_dir "exports/" (IO {[ ["exports"] := File (Text "x") ]} []) =
    (Raise (FileExistsError ["exports"]),
     IO {[ ["exports"] := File (Text "x") ]} [MakeDirs "exports/"]) /\
  export_fbx_and_zip "" true [] (IO {[ ["exports"] := File (Text "x") ]} []) =
    (Raise (FileExistsError ["exports"]),
     IO {[ ["exports"] := File (Text "x") ]} [MakeDirs "exports/"]).
Proof.
  exact (export_dir_is_a_file "" true [] (IO {[ ["exports"] := File (Text "x") ]} [])
           [] "exports" (Text "x") eq_refl eq_refl eq_refl).
Defined.

Lemma export_again_overwrites_witness :
  let st1 := IO {[ ["exports"] := Dir ]} [MakeDirs "exports/"] in
  let d := components "exports/" in
  exists st2 st3 new,
    export_fbx_and_zip "" true [] (IO ∅ []) = (Ok tt, st2) /\
    export_fbx_and_zip "" true
      [Object "Slab" (Some (MeshData [])) None []] st2 = (Ok tt, st3) /\
    fs st3 =
      <[d ++ ["Duplex_House_FBX.zip"] :=
          File (Zip [("Duplex_House.fbx",
                      Fbx [Object "Slab" (Some (MeshData [])) None []]);
                     ("README_Import.txt", Text readme_text)])]>
        (<[d ++ ["README_Import.txt"] := File (Text readme_text)]>
           (<[d ++ ["Duplex_House.fbx"] :=
                File (Fbx [Object "Slab" (Some (MeshData [])) None []])]> (fs st1))) /\
    trace st3 = trace st2 ++ new /\
    MakeDirs "exports/" ∉ new.
Proof.
  intros st1 d.
  apply (export_again_overwrites "" []
           [Object "Slab" (Some (MeshData [])) None []] (IO ∅ []) st1).
  - reflexivity.
  - reflexivity.
  - by vm_compute.
  - by vm_compute.
  - by vm_compute.
Defined.

End MoreWitnesses.
